(** * Fast-LLM dataset composition: configuration tree, validation and
      sampling contexts

    A shallow embedding of [fast_llm/utils.py] ([Assert],
    [normalize_probabilities]) and of [fast_llm/data/dataset/config.py]
    ([SamplingData], the dataset configuration classes, their validation and
    [build_and_sample]).

    Number models.  Python [int] is [Z].  The file has two readings of
    Python [float].  The first part reads it over exact arithmetic: a float
    is a rational [Q], compared with [Qeq]; it serves the properties that do
    not depend on how numbers are rounded (which checks validation runs,
    what a parameter override copies, what fails), and the one stated over
    exact arithmetic.  The part [Machine] computes as the code does, on IEEE
    754 binary64 numbers and 64-bit NumPy integers, and carries the
    properties of the numbers the code produces. *)

From Stdlib Require Import ZArith QArith Qabs Qround Qreals Reals Zfloor Lia Lqa Lra.
From Stdlib Require Import String List.
From stdpp Require Import base option list gmap strings.
Import ListNotations.

#[local] Set Warnings "-register-all".

Open Scope Z_scope.

(** ** Python exceptions and fallible computations *)

Inductive exception : Type :=
  | AssertionError
  | ValueError
  | TypeError
  | IndexError
  | ZeroDivisionError.

Inductive result (A : Type) : Type :=
  | Ok (a : A)
  | Err (e : exception).

Arguments Ok {A} a.
Arguments Err {A} e.

#[export] Instance result_ret : MRet result := fun A a => Ok a.

#[export] Instance result_bind : MBind result := fun A B k r =>
  match r with
  | Ok a => k a
  | Err e => Err e
  end.

(** ** [fast_llm.utils] *)

(** The comparisons [Assert] relies on, for the Python values it is used at. *)
Class PyOrd (A : Type) : Type := {
  py_eq : A -> A -> bool;
  py_le : A -> A -> bool;
  py_lt : A -> A -> bool
}.

#[export] Instance PyOrd_Z : PyOrd Z :=
  {| py_eq := Z.eqb; py_le := Z.leb; py_lt := Z.ltb |}.

#[export] Instance PyOrd_nat : PyOrd nat :=
  {| py_eq := Nat.eqb; py_le := Nat.leb; py_lt := Nat.ltb |}.

#[export] Instance PyOrd_Q : PyOrd Q :=
  {| py_eq := Qeq_bool;
     py_le := Qle_bool;
     py_lt := fun x y => negb (Qle_bool y x) |}.

Module Assert.

(** [assert c, ...] *)
Definition assert (c : bool) : result unit :=
  if c then Ok tt else Err AssertionError.

(** [Assert.eq(x, arg)]: [assert x == arg] *)
Definition eq {A : Type} `{PyOrd A} (x arg : A) : result unit :=
  assert (py_eq x arg).

(** [Assert.geq(x, y)]: [assert x >= y] *)
Definition geq {A : Type} `{PyOrd A} (x y : A) : result unit :=
  assert (py_le y x).

(** [Assert.gt(x, y)]: [assert x > y] *)
Definition gt {A : Type} `{PyOrd A} (x y : A) : result unit :=
  assert (py_lt y x).

(** [Assert.custom(fn, x)]: [assert fn(x)] *)
Definition custom {A : Type} (fn : A -> bool) (x : A) : result unit :=
  assert (fn x).

End Assert.

(** [p.sum()] of a one-dimensional array. *)
Definition np_sum (p : list Q) : Q := fold_right Qplus 0%Q p.

(** [np.all(x >= 0)] *)
Definition np_all_geq_0 (x : list Q) : bool := forallb (fun v => py_le 0%Q v) x.

(** [normalize_probabilities(p)] with [return_array=False]:
<<
    p = np.array(p)
    Assert.custom(lambda x: np.all(x >= 0), p)
    p_sum = p.sum()
    Assert.gt(p_sum, 0)
    out = p / p_sum
    return out if return_array else out.tolist()
>> *)
Definition normalize_probabilities (p : list Q) : result (list Q) :=
  Assert.custom np_all_geq_0 p ;;
  let p_sum := np_sum p in
  Assert.gt p_sum 0%Q ;;
  let out := map (fun v => v / p_sum)%Q p in
  mret out.

(** ** Python builtins on numbers *)

(** [round(x)] of a float, to an integer: to the nearest integer, a tie going
    to the even one. *)
Definition round (x : Q) : Z :=
  let f := Qfloor x in
  match (x - inject_Z f ?= 1 # 2)%Q with
  | Lt => f
  | Gt => f + 1
  | Eq => if Z.even f then f else f + 1
  end.

(** The rounding policy in words: [n] is a nearest integer of [x], and the
    even one when [x] lies halfway between two integers. *)
Definition rounds_half_to_even (x : Q) (n : Z) : Prop :=
  (Qabs (x - inject_Z n) <= 1 # 2)%Q
  /\ ((Qabs (x - inject_Z n) == 1 # 2)%Q -> Z.even n = true).

(** ** The heap: objects shared by reference *)

Definition ref : Type := nat.

(** What a [_rank_counter] attribute holds: the class [itertools.count], or
    an [itertools.count] iterator object. *)
Inductive rank_counter_value : Type :=
  | itertools_count
  | count_object (it : ref).

(** ** [fast_llm.data.dataset.config]: sampling contexts *)

(** Modelled from the spec: the configuration framework ([fast_llm.config]:
    [Config], [Field], [to_dict], [from_dict], [to_copy]) is not among the
    sources.  A config is a record of optional fields: [Some v] is a field set
    explicitly, [None] an unset one, read as its declared default.
<<
    seed: int = Field(default=784569, ...)
>> *)
Record SamplingConfig : Type := { seed_field : option Z }.

Definition seed (c : SamplingConfig) : Z := default 784569 (seed_field c).

(** Modelled from the spec: [update.to_dict()], the dictionary of the
    explicitly set fields. *)
Definition to_dict (c : SamplingConfig) : gmap string Z :=
  match seed_field c with
  | Some s => {[ "seed"%string := s ]}
  | None => ∅
  end.

(** Modelled from the spec: [cls.from_dict(base, updates,
    update_type=UpdateType.update)], the base with the entries of [updates]
    written over it. *)
Definition from_dict_update (base : SamplingConfig) (updates : gmap string Z)
  : SamplingConfig :=
  {| seed_field :=
       match updates !! "seed"%string with
       | Some s => Some s
       | None => seed_field base
       end |}.

(** Modelled from the spec: [config.to_copy(updates)], a copy with the
    entries of [updates] written over it. *)
Definition to_copy (c : SamplingConfig) (updates : gmap string Z) : SamplingConfig :=
  from_dict_update c updates.

Record SamplingParameters : Type := { num_samples : Z }.

Module DistributedConfig.
Record t : Type := { rank : Z; world_size : Z }.
End DistributedConfig.

Module Distributed.
Record t : Type := { config : DistributedConfig.t }.
End Distributed.

Record SamplingData : Type := {
  config : SamplingConfig;
  parameters : SamplingParameters;
  cache_directory : option string;
  distributed : Distributed.t;
  dataset_name : string;
  (* Using a mutable rather than an int so it's shared with all copies made with `update`. *)
  _rank_counter : rank_counter_value
}.

(** The declared default of the field: [_rank_counter: typing.Iterator[int] =
    itertools.count]. *)
Definition _rank_counter_default : rank_counter_value := itertools_count.

Record heap : Type := {
  sampling_datas : list SamplingData;   (* the [SamplingData] instances *)
  counts : list Z                       (* the value each [itertools.count] iterator yields next *)
}.

(** Computations that read and extend the heap, and may raise. *)
Definition M (A : Type) : Type := heap -> result (A * heap).

#[export] Instance M_ret : MRet M := fun A a h => Ok (a, h).

#[export] Instance M_bind : MBind M := fun A B k m h =>
  match m h with
  | Ok (a, h') => k a h'
  | Err e => Err e
  end.

Definition raise {A : Type} (e : exception) : M A := fun _ => Err e.

Definition lift {A : Type} (r : result A) : M A := fun h =>
  match r with
  | Ok a => Ok (a, h)
  | Err e => Err e
  end.

(** Reading the attributes of the [SamplingData] at [r].  A reference always
    points into the heap in a run; one that does not is an error here. *)
Definition deref (r : ref) : M SamplingData := fun h =>
  match sampling_datas h !! r with
  | Some d => Ok (d, h)
  | None => Err TypeError
  end.

(** A freshly constructed [SamplingData]. *)
Definition new_SamplingData (d : SamplingData) : M ref := fun h =>
  Ok (length (sampling_datas h),
      {| sampling_datas := sampling_datas h ++ [d]; counts := counts h |}).

(** [itertools.count()]: a new iterator, starting at 0. *)
Definition new_count : M ref := fun h =>
  Ok (length (counts h),
      {| sampling_datas := sampling_datas h; counts := counts h ++ [0] |}).

(** Calling the value of [_rank_counter]: the class builds an iterator; an
    iterator object is not callable. *)
Definition call (v : rank_counter_value) : M ref :=
  match v with
  | itertools_count => new_count
  | count_object _ => raise TypeError
  end.

(** [next(it)] on an [itertools.count] iterator. *)
Definition next (it : ref) : M Z := fun h =>
  match counts h !! it with
  | Some n =>
      Ok (n, {| sampling_datas := sampling_datas h; counts := <[it := n + 1]> (counts h) |})
  | None => Err TypeError
  end.

(** [x % y] on integers. *)
Definition py_mod (x y : Z) : M Z :=
  if y =? 0 then raise ZeroDivisionError else mret (x mod y).

(** [SamplingData.update_config]:
<<
    return dataclasses.replace(
        self, config=self.config.from_dict(self.config, update.to_dict(), update_type=UpdateType.update)
    )
>> *)
Definition update_config (self : ref) (update : SamplingConfig) : M ref :=
  s ← deref self;
  new_SamplingData
    {| config := from_dict_update (config s) (to_dict update);
       parameters := parameters s;
       cache_directory := cache_directory s;
       distributed := distributed s;
       dataset_name := dataset_name s;
       _rank_counter := _rank_counter s |}.

(** [SamplingData.get_next_rank]:
<<
    # Counter that loops over ranks to try to distribute workloads evenly between ranks.
    return next(self._rank_counter()) % self.distributed.config.world_size
>> *)
Definition get_next_rank (self : ref) : M Z :=
  s ← deref self;
  it ← call (_rank_counter s);
  n ← next it;
  py_mod n (DistributedConfig.world_size (Distributed.config (distributed s))).

(** [k] successive calls of [get_next_rank] on the same object. *)
Fixpoint get_next_ranks (k : nat) (self : ref) : M (list Z) :=
  match k with
  | O => mret []
  | S k' =>
      r ← get_next_rank self;
      rs ← get_next_ranks k' self;
      mret (r :: rs)
  end.

(** ** Datasets *)

(** A raw sample: a sequence of token ids. *)
Definition Sample : Type := list Z.

(** Modelled from the spec: an indexed corpus of the external provider
    ([fast_llm.data.dataset.indexed.IndexedDataset], not among the sources):
    a named random-access sequence of samples of known length. *)
Module IndexedDataset.
Record t : Type := { name : string; samples : list Sample }.

Definition len (d : t) : Z := Z.of_nat (length (samples d)).

Definition get (d : t) (index : Z) : result Sample :=
  if (0 <=? index) && (index <? len d)
  then match samples d !! Z.to_nat index with
       | Some x => Ok x
       | None => Err IndexError
       end
  else Err IndexError.
End IndexedDataset.

(** Modelled from the spec: [fast_llm.data.dataset.indexed.DatasetSlice] is
    not among the sources.  A slice keeps the bounds it is built with; its
    length is [end - begin] and [get(i)] is [dataset.get(begin + i)] for
    [0 <= i < end - begin], an [IndexError] otherwise.  Its name is the
    f-string [f"{dataset.name}_{self.begin}_{self.end}"], kept as its three
    interpolated parts. *)
Module DatasetSlice.
Record t : Type := {
  name : string * Q * Q;
  dataset : IndexedDataset.t;
  begin : Z;
  end_ : Z
}.

Definition len (d : t) : Z := end_ d - begin d.

Definition get (d : t) (index : Z) : result Sample :=
  if (0 <=? index) && (index <? len d)
  then IndexedDataset.get (dataset d) (begin d + index)
  else Err IndexError.
End DatasetSlice.

(** Modelled from the spec: [fast_llm.data.dataset.indexed.ConcatenatedDataset]
    is not among the sources; only its constructor arguments are kept. *)
Module ConcatenatedDataset.
Record t : Type := { name : string; datasets : list IndexedDataset.t }.
End ConcatenatedDataset.

Inductive SamplableDataset : Type :=
  | Indexed (d : IndexedDataset.t)
  | Concatenated (d : ConcatenatedDataset.t)
  | Slice (d : DatasetSlice.t).

(** The resolved output.  [Sampled d sampling] is [d.sample(sampling)], the
    sampling of the external provider; [BlendedDataset] keeps the arguments of
    [fast_llm.data.dataset.blended.BlendedDataset(name, datasets, weights,
    sampling_config)]. *)
Inductive SampledDataset : Type :=
  | Sampled (dataset : SamplableDataset) (sampling : ref)
  | BlendedDataset (name : string) (datasets : list SampledDataset)
      (weights : list Q) (sampling : ref).

(** ** Dataset configurations *)

(** A concrete [IndexedDatasetConfig] of the external provider, given by the
    corpus its [build()] returns. *)
Record IndexedDatasetConfig : Type := { indexed_build : IndexedDataset.t }.

(** The configs that build a samplable dataset.  [IndexedDatasetConfig] is
    abstract in the source; [IndexedConfig] stands for its concrete
    subclasses. *)
Inductive SamplableDatasetConfig : Type :=
  | IndexedConfig (c : IndexedDatasetConfig)
  | ConcatenatedDatasetConfig (name : string) (datasets : list IndexedDatasetConfig)
  | DatasetSliceConfig (dataset : IndexedDatasetConfig) (begin end_ : Q).

(** The configs that resolve to a sampled dataset.
    [SampledDatasetUpdateConfig] is declared abstract; the constructor stands
    for its concrete subclasses, which inherit its [build_and_sample]. *)
Inductive SampledDatasetConfig : Type :=
  | Samplable (c : SamplableDatasetConfig)
  | SampledDatasetUpdateConfig (sampling : SamplingConfig) (dataset : SampledDatasetConfig)
  | BlendedDatasetConfig (name : string) (datasets : list SampledDatasetConfig)
      (weights : list Q) (legacy : bool).

(** *** Validation, run when a config is constructed *)

(** Modelled from the spec: a [Field] declaration of the framework
    ([fast_llm.config], not among the sources), kept to its description and
    to the check given as [valid=check_field(fn)], when there is one.  The
    field-by-field validation of the framework, [Config._validate], runs the
    check of every field on its value and validates the nested configs. *)
Record Field (A : Type) : Type := {
  desc : string;
  valid : option (A -> result unit)
}.

Arguments desc {A} _.
Arguments valid {A} _.

Definition check_field {A : Type} (fn : A -> result unit) : option (A -> result unit) :=
  Some fn.

Definition Field_validate {A : Type} (field : Field A) (value : A) : result unit :=
  match valid field with
  | Some fn => fn value
  | None => mret tt
  end.

(** The fields of [ConcatenatedDatasetConfig]. *)
Definition ConcatenatedDatasetConfig_name : Field string :=
  {| desc := "The name of the dataset."; valid := None |}.

Definition ConcatenatedDatasetConfig_datasets : Field (list IndexedDatasetConfig) :=
  {| desc := "The datasets to concatenate.";
     valid := check_field (Assert.custom (fun x => py_lt 0%nat (length x))) |}.

(** The fields of [DatasetSliceConfig]: none has a check. *)
Definition DatasetSliceConfig_dataset : Field IndexedDatasetConfig :=
  {| desc := "The dataset to split."; valid := None |}.

Definition DatasetSliceConfig_begin : Field Q :=
  {| desc := "The beginning of the dataset split, as a fraction of the total samples.";
     valid := None |}.

Definition DatasetSliceConfig_end : Field Q :=
  {| desc := "The end of the dataset split, as a fraction of the total samples.";
     valid := None |}.

(** The fields of [SampledDatasetUpdateConfig]. *)
Definition SampledDatasetUpdateConfig_sampling : Field SamplingConfig :=
  {| desc := "Optional override to sampling configuration parameters."; valid := None |}.

(** The fields of [BlendedDatasetConfig]. *)
Definition BlendedDatasetConfig_name : Field string :=
  {| desc := "The name of the dataset."; valid := None |}.

Definition BlendedDatasetConfig_datasets : Field (list SampledDatasetConfig) :=
  {| desc := "The datasets to blend."; valid := None |}.

Definition BlendedDatasetConfig_weights : Field (list Q) :=
  {| desc := "The blending weight of each dataset."; valid := None |}.

Definition BlendedDatasetConfig_legacy : Field bool :=
  {| desc := "Use the legacy formulas for sub-dataset seeds and sample sizes.";
     valid := None |}.

(** Validation of the configs that build a samplable dataset.  None of these
    classes has a [_validate] of its own: their validation is the
    field-by-field one.  The configs of the external provider are taken as
    valid. *)
Definition SamplableDatasetConfig_validate (c : SamplableDatasetConfig)
  : result SamplableDatasetConfig :=
  match c with
  | IndexedConfig c => mret (IndexedConfig c)
  | ConcatenatedDatasetConfig name datasets =>
      Field_validate ConcatenatedDatasetConfig_name name ;;
      Field_validate ConcatenatedDatasetConfig_datasets datasets ;;
      mret (ConcatenatedDatasetConfig name datasets)
  | DatasetSliceConfig dataset begin end_ =>
      Field_validate DatasetSliceConfig_dataset dataset ;;
      Field_validate DatasetSliceConfig_begin begin ;;
      Field_validate DatasetSliceConfig_end end_ ;;
      mret (DatasetSliceConfig dataset begin end_)
  end.

(** Modelled from the spec: the framework validating the configs nested in a
    list field, one after the other. *)
Definition validate_nested {C : Type} (validate : C -> result C)
  : list C -> result (list C) :=
  fix validate_nested (l : list C) : result (list C) :=
    match l with
    | [] => mret []
    | c :: l' =>
        c' ← validate c;
        r ← validate_nested l';
        mret (c' :: r)
    end.

(** Validation of a sampled-dataset config.  [SampledDatasetUpdateConfig] has
    the field-by-field validation only; [BlendedDatasetConfig] overrides
    [_validate], [super()._validate()] being the field-by-field one:
<<
    self.weights = normalize_probabilities(self.weights)
    super()._validate()
    Assert.geq(len(self.datasets), 2)
    Assert.eq(len(self.datasets), len(self.weights))
>> *)
Fixpoint validate (c : SampledDatasetConfig) : result SampledDatasetConfig :=
  match c with
  | Samplable c =>
      c' ← SamplableDatasetConfig_validate c;
      mret (Samplable c')
  | SampledDatasetUpdateConfig sampling dataset =>
      Field_validate SampledDatasetUpdateConfig_sampling sampling ;;
      dataset' ← validate dataset;
      mret (SampledDatasetUpdateConfig sampling dataset')
  | BlendedDatasetConfig name datasets weights legacy =>
      weights' ← normalize_probabilities weights;
      Field_validate BlendedDatasetConfig_name name ;;
      datasets' ← validate_nested validate datasets;
      Field_validate BlendedDatasetConfig_datasets datasets' ;;
      Field_validate BlendedDatasetConfig_weights weights' ;;
      Field_validate BlendedDatasetConfig_legacy legacy ;;
      Assert.geq (length datasets') 2%nat ;;
      Assert.eq (length datasets') (length weights') ;;
      mret (BlendedDatasetConfig name datasets' weights' legacy)
  end.

(** *** Building *)

Definition IndexedDatasetConfig_build (c : IndexedDatasetConfig) : IndexedDataset.t :=
  indexed_build c.

(** [ConcatenatedDatasetConfig._build]:
<<
    return cls(self.name, [dataset.build() for dataset in self.datasets])
>> *)
Definition ConcatenatedDatasetConfig_build (name : string)
  (datasets : list IndexedDatasetConfig) : ConcatenatedDataset.t :=
  {| ConcatenatedDataset.name := name;
     ConcatenatedDataset.datasets := map IndexedDatasetConfig_build datasets |}.

(** [DatasetSliceConfig._build]:
<<
    dataset = self.dataset.build()
    size = len(dataset)
    return cls(
        f"{dataset.name}_{self.begin}_{self.end}",
        dataset,
        round(self.begin * size),
        round(self.end * size),
    )
>> *)
Definition DatasetSliceConfig_build (dataset : IndexedDatasetConfig) (begin end_ : Q)
  : DatasetSlice.t :=
  let dataset := IndexedDatasetConfig_build dataset in
  let size := IndexedDataset.len dataset in
  {| DatasetSlice.name := (IndexedDataset.name dataset, begin, end_);
     DatasetSlice.dataset := dataset;
     DatasetSlice.begin := round (begin * inject_Z size);
     DatasetSlice.end_ := round (end_ * inject_Z size) |}.

Definition build (c : SamplableDatasetConfig) : SamplableDataset :=
  match c with
  | IndexedConfig c => Indexed (IndexedDatasetConfig_build c)
  | ConcatenatedDatasetConfig name datasets =>
      Concatenated (ConcatenatedDatasetConfig_build name datasets)
  | DatasetSliceConfig dataset begin end_ =>
      Slice (DatasetSliceConfig_build dataset begin end_)
  end.

(** *** Resolution: [build_and_sample] *)

(** The sample count requested from a branch of weight [weight] by
    [BlendedDatasetConfig.build_and_sample]:
<<
    num_samples=(
        math.ceil(
            weight
            * (
                sampling.parameters.num_samples
                + 5 * (sampling.parameters.num_samples * (1 - weight)) ** 0.5
            )
        )
        if self.legacy
        else math.ceil(weight * sampling.parameters.num_samples) + 1
    ),
>>
    A negative float raised to [0.5] is a complex number, which [math.ceil]
    rejects with a [TypeError]. *)
Definition blended_num_samples (legacy : bool) (weight : Q) (num_samples : Z)
  : result Z :=
  if legacy then
    if py_lt (inject_Z num_samples * (1 - weight))%Q 0%Q then Err TypeError
    else Ok (Zceil (Q2R weight
                    * (IZR num_samples
                       + 5 * sqrt (IZR num_samples * (1 - Q2R weight))))%R)
  else Ok (Qceiling (weight * inject_Z num_samples) + 1).

(** The seed given to branch [i]:
<<
    sampling.config.seed + i * (0 if self.legacy else 697)
>> *)
Definition blended_seed (legacy : bool) (sampling : SamplingData) (i : Z) : Z :=
  seed (config sampling) + i * (if legacy then 0 else 697).

(** The context a branch is resolved with:
<<
    dataclasses.replace(
        sampling,
        parameters=dataclasses.replace(sampling.parameters, num_samples=...),
        # TODO: Seed may not be unique for nested blended datasets.
        config=sampling.config.to_copy({"seed": sampling.config.seed + i * (0 if self.legacy else 697)}),
    )
>> *)
Definition blended_sampling (legacy : bool) (sampling : ref) (i : Z) (weight : Q)
  : M ref :=
  s ← deref sampling;
  n ← lift (blended_num_samples legacy weight (num_samples (parameters s)));
  new_SamplingData
    {| config := to_copy (config s) {[ "seed"%string := blended_seed legacy s i ]};
       parameters := {| num_samples := n |};
       cache_directory := cache_directory s;
       distributed := distributed s;
       dataset_name := dataset_name s;
       _rank_counter := _rank_counter s |}.

(** The list comprehension of [BlendedDatasetConfig.build_and_sample], from
    index [i] on, [build_and_sample] being the method of the branches:
<<
    sampled_datasets = [
        dataset.build_and_sample(dataclasses.replace(sampling, ...))
        for i, (dataset, weight) in enumerate(zip(self.datasets, self.weights, strict=True))
    ]
>>
    [zip(..., strict=True)] raises a [ValueError] once one of the two lists is
    exhausted before the other. *)
Definition blended_branches {C D : Type} (build_and_sample : C -> ref -> M D)
  (legacy : bool) (sampling : ref) : Z -> list C -> list Q -> M (list D) :=
  fix branches (i : Z) (datasets : list C) (weights : list Q) : M (list D) :=
    match datasets, weights with
    | [], [] => mret []
    | dataset :: datasets', weight :: weights' =>
        data ← blended_sampling legacy sampling i weight;
        x ← build_and_sample dataset data;
        xs ← branches (i + 1) datasets' weights';
        mret (x :: xs)
    | _, _ => raise ValueError
    end.

(** [build_and_sample] of the three kinds of sampled-dataset config.
    - [SamplableDatasetConfig]: [return self.build().sample(sampling)]
    - [SampledDatasetUpdateConfig]:
      [return self.dataset.build_and_sample(data.update_config(self.sampling))]
    - [BlendedDatasetConfig]: the branches, then
      [return BlendedDataset(self.name, sampled_datasets, self.weights, sampling)] *)
Fixpoint build_and_sample (c : SampledDatasetConfig) (sampling : ref)
  : M SampledDataset :=
  match c with
  | Samplable c => mret (Sampled (build c) sampling)
  | SampledDatasetUpdateConfig update dataset =>
      data ← update_config sampling update;
      build_and_sample dataset data
  | BlendedDatasetConfig name datasets weights legacy =>
      sampled_datasets ← blended_branches build_and_sample legacy sampling 0 datasets weights;
      mret (BlendedDataset name sampled_datasets weights sampling)
  end.

(** ** Frame of a computation on the heap *)

(** [h'] extends [h]: every [SamplingData] of [h] is in [h'] at the same
    reference with the same attributes, and no iterator was built or
    advanced. *)
Definition heap_extends (h h' : heap) : Prop :=
  sampling_datas h `prefix_of` sampling_datas h' /\ counts h' = counts h.

(** [self.distributed.config.world_size] *)
Definition world_size_of (s : SamplingData) : Z :=
  DistributedConfig.world_size (Distributed.config (distributed s)).

(** ** Concrete inputs *)

(** A [SamplingData] built with the declared default of [_rank_counter], for
    a given world size and requested number of samples. *)
Definition example_sampling (world_size num_samples : Z) : SamplingData :=
  {| config := {| seed_field := None |};
     parameters := {| num_samples := num_samples |};
     cache_directory := None;
     distributed :=
       {| Distributed.config :=
            {| DistributedConfig.rank := 0;
               DistributedConfig.world_size := world_size |} |};
     dataset_name := "dataset";
     _rank_counter := _rank_counter_default |}.

(** A heap holding that one object, at reference 0. *)
Definition example_heap (world_size num_samples : Z) : heap :=
  {| sampling_datas := [example_sampling world_size num_samples]; counts := [] |}.

(** A corpus of ten one-token samples, and the leaf config that builds it. *)
Definition example_corpus : IndexedDataset.t :=
  {| IndexedDataset.name := "corpus";
     IndexedDataset.samples := map (fun t => [t]) [0; 1; 2; 3; 4; 5; 6; 7; 8; 9] |}.

Definition example_indexed : IndexedDatasetConfig := {| indexed_build := example_corpus |}.

Definition example_leaf : SampledDatasetConfig := Samplable (IndexedConfig example_indexed).

From stdpp Require pretty.

(** * The rest of [fast_llm.utils] *)

(** ** Integer helpers *)

(** [x % y] and [x // y] on integers: floored, and a [ZeroDivisionError] on a
    zero divisor. *)
Definition int_mod (x y : Z) : result Z :=
  if y =? 0 then Err ZeroDivisionError else Ok (x mod y).

Definition int_floordiv (x y : Z) : result Z :=
  if y =? 0 then Err ZeroDivisionError else Ok (x / y).

(** [div(x, y)]:
<<
    if x % y != 0:
        raise ValueError(f"{x}%{y}!=0")
    return x // y
>> *)
Definition div (x y : Z) : result Z :=
  r ← int_mod x y;
  if negb (r =? 0) then Err ValueError else int_floordiv x y.

(** [clamp(x, x_min, x_max)]: [return min(max(x, x_min), x_max)] *)
Definition clamp (x x_min x_max : Z) : Z := Z.min (Z.max x x_min) x_max.


(** ** [header] *)



(** ** Exceptions raised by the code below, besides the ones above *)

Inductive error : Type :=
  | Exception (e : exception)
  | KeyError
  | AttributeError
  | NotImplementedError
  | RecursionError
  | OverflowError.

Inductive outcome (A : Type) : Type :=
  | Return (a : A)
  | Raise (e : error).

Arguments Return {A} a.
Arguments Raise {A} e.

#[export] Instance outcome_ret : MRet outcome := fun A a => Return a.

#[export] Instance outcome_bind : MBind outcome := fun A B k r =>
  match r with
  | Return a => k a
  | Raise e => Raise e
  end.

Definition of_result {A : Type} (r : result A) : outcome A :=
  match r with
  | Ok a => Return a
  | Err e => Raise (Exception e)
  end.

(** ** [get_unique] *)

(** [value.pop()] on a set: one of its elements, a [KeyError] when it is
    empty. *)
Definition set_pop `{Countable A} (value : gset A) : outcome A :=
  match elements value with
  | v :: _ => Return v
  | [] => Raise KeyError
  end.

(** [get_unique(values)]:
<<
    value = set(values)
    Assert.custom(lambda x: len(x) == 1, value)
    return value.pop()
>> *)
Definition get_unique `{Countable A} (values : list A) : outcome A :=
  let value : gset A := list_to_set values in
  of_result (Assert.custom (fun x : gset A => (size x =? 1)%nat) value) ;;
  set_pop value.

(** ** [Registry] *)

(** A [Registry] keeps a private copy of a [dict], here the list of its
    items in insertion order, with no key twice. *)
Module Registry.
Section Registry.
Context {K V : Type} `{EqDecision K}.

Record t : Type := { _name : string; _data : list (K * V) }.

(** [self._data[key]], for a key that is there. *)
Fixpoint dict_getitem (data : list (K * V)) (key : K) : option V :=
  match data with
  | [] => None
  | (k, v) :: data' => if decide (k = key) then Some v else dict_getitem data' key
  end.

(** [__init__]: [self._name = name; self._data = data.copy()] *)
Definition init (name : string) (data : list (K * V)) : t :=
  {| _name := name; _data := data |}.

(** [__contains__]: [return key in self._data] *)
Definition contains (self : t) (key : K) : bool :=
  bool_decide (key ∈ (_data self).*1).

(** [__getitem__]:
<<
    if key not in self:
        raise KeyError(f"Entry {key} not found in {self._name} registry")
    return self._data[key]
>> *)
Definition getitem (self : t) (key : K) : outcome V :=
  if negb (contains self key) then Raise KeyError
  else match dict_getitem (_data self) key with
       | Some v => Return v
       | None => Raise KeyError
       end.

(** [__setitem__]:
<<
    if key in self:
        raise KeyError(f"Entry {key} already in {self._name} registry")
    self._data[key] = value
>> *)
Definition setitem (self : t) (key : K) (value : V) : outcome t :=
  if contains self key then Raise KeyError
  else Return {| _name := _name self; _data := _data self ++ [(key, value)] |}.

(** [__delitem__]:
<<
    if key not in self:
        raise KeyError(f"Entry {key} not found in {self._name} registry")
    del self._data[key]
>> *)
Definition delitem (self : t) (key : K) : outcome t :=
  if negb (contains self key) then Raise KeyError
  else Return {| _name := _name self;
                 _data := filter (fun kv => kv.1 <> key) (_data self) |}.

(** [keys]: [return list(self._data)] *)
Definition keys (self : t) : list K := (_data self).*1.

(** [__len__]: [return len(self._data)] *)
Definition len (self : t) : nat := length (_data self).

(** [items]: [return self._data.items()] *)
Definition items (self : t) : list (K * V) := _data self.

End Registry.

Arguments t : clear implicits.
End Registry.

(** A registry of two model names. *)
Definition example_registry : Registry.t string Z :=
  Registry.init "model" [("gpt"%string, 1); ("llama"%string, 2)].

(** ** [compare_nested] and [check_equal_nested] *)

(** The nested values compared: [None], booleans, integers, strings, lists,
    tuples, and dictionaries with string keys.  A dictionary is the list of
    its items in insertion order, no key twice. *)
Inductive py_value : Type :=
  | PyNone
  | PyBool (b : bool)
  | PyInt (z : Z)
  | PyStr (s : string)
  | PyList (l : list py_value)
  | PyTuple (l : list py_value)
  | PyDict (d : list (string * py_value)).

Inductive py_type : Type :=
  | NoneType | bool_type | int_type | str_type | list_type | tuple_type | dict_type.

#[export] Instance py_type_eq_dec : EqDecision py_type.
Proof. solve_decision. Defined.

(** [type(x)] *)
Definition type_of (x : py_value) : py_type :=
  match x with
  | PyNone => NoneType
  | PyBool _ => bool_type
  | PyInt _ => int_type
  | PyStr _ => str_type
  | PyList _ => list_type
  | PyTuple _ => tuple_type
  | PyDict _ => dict_type
  end.

(** [d[key]] on the items of a dictionary, [None] standing for a missing
    key. *)
Fixpoint dict_lookup (d : list (string * py_value)) (key : string) : option py_value :=
  match d with
  | [] => None
  | (k, v) :: d' => if decide (k = key) then Some v else dict_lookup d' key
  end.

(** [x != y] for a value [x] that is not a container: [True == 1] and
    [False == 0], and values of otherwise different types are different. *)
Definition scalar_ne (x y : py_value) : bool :=
  match x, y with
  | PyNone, PyNone => false
  | PyBool a, PyBool b => negb (Bool.eqb a b)
  | PyBool a, PyInt z | PyInt z, PyBool a => negb (z =? (if a then 1 else 0))
  | PyInt a, PyInt b => negb (a =? b)
  | PyStr a, PyStr b => negb (String.eqb a b)
  | _, _ => true
  end.

(** [len(x)]: a [TypeError] for a value without a length. *)
Definition py_len (x : py_value) : outcome nat :=
  match x with
  | PyStr s => Return (String.length s)
  | PyList l | PyTuple l => Return (length l)
  | PyDict d => Return (length d)
  | PyNone | PyBool _ | PyInt _ => Raise (Exception TypeError)
  end.

(** [x[i]] for an index [0 <= i < len(x)]: the element of a list or a tuple,
    the one-character string of a string; a dictionary with string keys has
    no integer key. *)
Definition py_getitem (x : py_value) (i : nat) : outcome py_value :=
  match x with
  | PyList l | PyTuple l =>
      match l !! i with
      | Some v => Return v
      | None => Raise (Exception IndexError)
      end
  | PyStr s =>
      match String.get i s with
      | Some c => Return (PyStr (String c EmptyString))
      | None => Raise (Exception IndexError)
      end
  | PyDict _ => Raise KeyError
  | PyNone | PyBool _ | PyInt _ => Raise (Exception TypeError)
  end.

(** The messages appended to [errors], kept as what they report and the key
    path they report it for (the [prefix], joined with dots in the text). *)
Inductive nested_error : Type :=
  | Type_mismatch (key : list string) (type_a type_b : py_type)
  | Key_missing_in_lhs (key : list string)
  | Key_missing_in_rhs (key : list string)
  | Length_mismatch (key : list string) (len_a len_b : nat)
  | Different_value (key : list string) (config_a config_b : py_value).

(** [compare_nested(config_a, config_b, errors, prefix)], [errors=None]
    standing for a new empty list:
<<
    if errors is None:
        errors = []
    # Check for equality of both values and types.
    if type(config_a) != type(config_b):
        errors.append(f"Type mismatch for key `{".".join(prefix)}`: {type(config_a)} != {type(config_b)}")
    if isinstance(config_a, dict):
        for key in config_a.keys() | config_b.keys():
            key_ = prefix + (key,)
            if key not in config_a:
                errors.append(f"Key `{".".join(key_)}` missing in lhs.")
            elif key not in config_b:
                errors.append(f"Key `{".".join(key_)}` missing in rhs.")
            else:
                compare_nested(config_a[key], config_b[key], errors, key_)
    elif isinstance(config_a, (list, tuple, set)):
        if len(config_a) != len(config_b):
            errors.append(f"Length mismatch for key `{".".join(prefix)}`: {len(config_a)} != {len(config_b)}.")
        else:
            for i in range(len(config_a)):
                compare_nested(config_a[i], config_b[i], errors, prefix + (str(i),))
    elif config_a != config_b and config_a is not config_b:
        # `is not` needed for special cases like `math.nan`
        errors.append(f"Different value for key `{".".join(prefix)}`: {config_a} != {config_b}.")
    return errors
>>
    Python does not fix the order in which the union of the two key sets is
    iterated; here the keys of [config_a] come first, in their order
    ([compare_nested_keys]), then the keys that only [config_b] has.  Calling
    [.keys()] on a value that is not a dictionary raises an [AttributeError].
    [compare_nested_range] is the loop over [range(len(config_a))]. *)
Definition compare_nested_keys
  (compare_nested : py_value -> py_value -> list nested_error -> list string
                    -> outcome (list nested_error))
  (config_b : list (string * py_value)) (prefix : list string)
  : list (string * py_value) -> list nested_error -> outcome (list nested_error) :=
  fix for_key (items : list (string * py_value)) (errors : list nested_error) :=
    match items with
    | [] => Return errors
    | (key, value_a) :: items' =>
        errors ←
          match dict_lookup config_b key with
          | None => Return (errors ++ [Key_missing_in_rhs (prefix ++ [key])])
          | Some value_b => compare_nested value_a value_b errors (prefix ++ [key])
          end;
        for_key items' errors
    end.

Definition compare_nested_range
  (compare_nested : py_value -> py_value -> list nested_error -> list string
                    -> outcome (list nested_error))
  (config_b : py_value) (prefix : list string)
  : nat -> list py_value -> list nested_error -> outcome (list nested_error) :=
  fix for_i (i : nat) (rest : list py_value) (errors : list nested_error) :=
    match rest with
    | [] => Return errors
    | value_a :: rest' =>
        value_b ← py_getitem config_b i;
        errors ← compare_nested value_a value_b errors (prefix ++ [pretty.pretty i]);
        for_i (S i) rest' errors
    end.

Fixpoint compare_nested (config_a config_b : py_value) (errors : list nested_error)
  (prefix : list string) {struct config_a} : outcome (list nested_error) :=
  let errors :=
    if decide (type_of config_a <> type_of config_b)
    then errors ++ [Type_mismatch prefix (type_of config_a) (type_of config_b)]
    else errors in
  match config_a with
  | PyDict a =>
      match config_b with
      | PyDict b =>
          errors ← compare_nested_keys compare_nested b prefix a errors;
          Return (errors
                  ++ map (fun key => Key_missing_in_lhs (prefix ++ [key]))
                       (filter (fun key => key ∉ a.*1) b.*1))
      | _ => Raise AttributeError
      end
  | PyList a | PyTuple a =>
      len_b ← py_len config_b;
      if decide (length a <> len_b)
      then Return (errors ++ [Length_mismatch prefix (length a) len_b])
      else compare_nested_range compare_nested config_b prefix 0%nat a errors
  | PyNone | PyBool _ | PyInt _ | PyStr _ =>
      if scalar_ne config_a config_b
      then Return (errors ++ [Different_value prefix config_a config_b])
      else Return errors
  end.

(** [check_equal_nested(config_a, config_b)]:
<<
    if errors := compare_nested(config_a, config_b):
        raise ValueError("\n".join(errors))
>> *)
Definition check_equal_nested (config_a config_b : py_value) : outcome unit :=
  errors ← compare_nested config_a config_b [] [];
  match errors with
  | [] => Return tt
  | _ :: _ => Raise (Exception ValueError)
  end.

(** A nested value is well formed when no dictionary in it has a key twice. *)
Fixpoint py_wf (x : py_value) : Prop :=
  match x with
  | PyList l | PyTuple l =>
      (fix all (l : list py_value) : Prop :=
         match l with
         | [] => True
         | v :: l' => py_wf v /\ all l'
         end) l
  | PyDict d =>
      NoDup d.*1
      /\ (fix all (d : list (string * py_value)) : Prop :=
            match d with
            | [] => True
            | (_, v) :: d' => py_wf v /\ all d'
            end) d
  | PyNone | PyBool _ | PyInt _ | PyStr _ => True
  end.

(** Two nested values are the same: the same scalars, the same elements in
    the same order in lists and tuples, the same keys with the same values in
    dictionaries, whatever the order of their items. *)
Inductive py_same : py_value -> py_value -> Prop :=
  | py_same_None : py_same PyNone PyNone
  | py_same_Bool b : py_same (PyBool b) (PyBool b)
  | py_same_Int z : py_same (PyInt z) (PyInt z)
  | py_same_Str s : py_same (PyStr s) (PyStr s)
  | py_same_List a b : Forall2 py_same a b -> py_same (PyList a) (PyList b)
  | py_same_Tuple a b : Forall2 py_same a b -> py_same (PyTuple a) (PyTuple b)
  | py_same_Dict a b :
      (forall key, key ∈ a.*1 <-> key ∈ b.*1) ->
      (forall key value_a value_b,
          dict_lookup a key = Some value_a -> dict_lookup b key = Some value_b ->
          py_same value_a value_b) ->
      py_same (PyDict a) (PyDict b).

(** The errors found are appended to the ones passed in: a call is the call
    on an empty list, put after [errors]. *)
Definition compare_nested_accumulates (a : py_value) : Prop :=
  forall b errors prefix,
    compare_nested a b errors prefix
    = new ← compare_nested a b [] prefix; Return (errors ++ new).

(** No error is found by [compare_nested a] only on a value that is the same
    as [a]. *)
Definition compare_nested_sound_at (a : py_value) : Prop :=
  forall b prefix, compare_nested a b [] prefix = Return [] -> py_same a b.

(** No error is found by [compare_nested a] on the values that are the same
    as [a]. *)
Definition compare_nested_complete_at (a : py_value) : Prop :=
  py_wf a -> forall b prefix, py_same a b -> compare_nested a b [] prefix = Return [].

(** Nested values for the examples: a configuration, and the same with its
    items in another order. *)
Definition example_nested : py_value :=
  PyDict [("layers", PyList [PyInt 2; PyInt 4]); ("bias", PyBool true);
          ("name", PyStr "gpt")].

Definition example_nested_reordered : py_value :=
  PyDict [("name", PyStr "gpt"); ("layers", PyList [PyInt 2; PyInt 4]);
          ("bias", PyBool true)].

(** ** [Interrupter] *)

Module Interrupter.
Section Interrupter.

(** The functions installed as signal handlers before the [Interrupter]. *)
Context {F : Type}.

(** What [signal.signal] takes and returns as a handler: [signal.SIG_DFL],
    [signal.SIG_IGN], [None] (a handler not installed from Python), a
    function, or the bound method [self._handle_signal] of the
    [Interrupter]. *)
Inductive handler : Type :=
  | SIG_DFL
  | SIG_IGN
  | No_handler
  | Function (f : F)
  | Handle_signal.

(** The handlers of the process, one for each signal number. *)
Definition handlers : Type := Z -> handler.

(** Calls that read and change the handlers of the process; what a call
    that raises has changed before stays changed. *)
Definition S (A : Type) : Type := handlers -> outcome A * handlers.




(** The attributes; [_interrupted] and [_old_signals] are set by
    [__enter__] only. *)
Record t : Type := {
  _enabled : bool;
  _signals : list Z;
  _interrupted : option bool;
  _old_signals : option (list (Z * handler))
}.









End Interrupter.

Arguments handler : clear implicits.
Arguments handlers : clear implicits.
Arguments S : clear implicits.
Arguments t : clear implicits.

End Interrupter.



(** * [fast_llm.layers.language_model.config] *)

(** [str(index)] of an integer: its decimal digits, after a minus sign when
    it is negative. *)
Definition str_int (index : Z) : string := pretty.pretty index.

Module LanguageModelLossNames.

Definition language_model_loss : string := "language_model_loss".

(** [multi_token_prediction_loss(index)]:
<<
    if index == 0:
        return LanguageModelLossNames.language_model_loss
    return f"language_model_loss_{index}"
>> *)
Definition multi_token_prediction_loss (index : Z) : string :=
  if index =? 0 then language_model_loss
  else String.append "language_model_loss_" (str_int index).

End LanguageModelLossNames.

(** [Assert.leq(x, y)]: [assert x <= y] *)
Definition Assert_leq {A : Type} `{PyOrd A} (x y : A) : result unit :=
  Assert.assert (py_le x y).

(** Modelled from the spec: [skip_valid_if_none] of the framework
    ([fast_llm.config], not among the sources) runs the check of a field only
    on a value that is not [None]. *)
Definition skip_valid_if_none {A : Type} (valid : option (A -> result unit))
  : option (option A -> result unit) :=
  match valid with
  | Some fn => Some (fun value => match value with
                                  | Some v => fn v
                                  | None => Ok tt
                                  end)
  | None => None
  end.

(** Modelled from the spec: [TransformerConfig]
    ([fast_llm.layers.transformer.config], not among the sources), kept to
    the attributes [LanguageModelBaseConfig._validate] reads;
    [rotary_is_NoRotaryConfig] is [isinstance(rotary, NoRotaryConfig)]. *)
Module TransformerConfig.
Record t : Type := {
  rotary_is_NoRotaryConfig : bool;
  init_method_std : option Q;
  init_method_max : option Q;
  init_method_min : option Q;
  per_layer_lr_scale : option (list (option Q));
  num_layers : Z
}.
End TransformerConfig.

Module LanguageModelBaseConfig.

(** The fields [_validate] reads, writes or checks.  A field declared with
    [default=None] is an option; the fields left out
    ([tie_word_embeddings], the DPO fields, [cross_entropy_impl],
    [distillation_loss_implementation], [parallel_embeddings],
    [sequence_first], [distillation_loss_factor], [output_lr_scale]) have no
    check and are not used by [_validate]. *)
Record t : Type := {
  transformer : TransformerConfig.t;
  max_position_embeddings : Z;
  vocab_size : Z;
  use_position_embeddings : option bool;
  prediction_heads : Z;
  init_method_std_embed : option Q;
  init_method_max_embed : option Q;
  init_method_min_embed : option Q;
  cross_entropy_splits : option Z;
  distillation_model : option string;
  logit_z_loss : Q;
  language_model_loss_factor : option Q;
  logits_scale_factor : Q;
  teacher_softmax_temperature : Q;
  embeddings_lr_scale : option Q;
  prediction_loss_coefficient : option (list Q)
}.

(** The checks of the field declarations, [valid=check_field(Assert.gt, 0)]
    and the like. *)
Definition max_position_embeddings_field : Field Z :=
  {| desc := "Number of absolute position embeddings, if applicable.";
     valid := check_field (fun x => Assert.gt x 0) |}.

Definition vocab_size_field : Field Z :=
  {| desc := "Size of the vocabulary, i.e., number of vocabulary embeddings and logits.";
     valid := check_field (fun x => Assert.gt x 0) |}.

Definition prediction_heads_field : Field Z :=
  {| desc := "Number of multi-token prediction heads.";
     valid := check_field (fun x => Assert.gt x 0) |}.

(** [init_method_std_embed: float], checked with [Assert.geq(x, 0)]: a value
    still [None] is not a float, and [None >= 0] is a [TypeError]. *)
Definition init_method_std_embed_field : Field (option Q) :=
  {| desc := "Initialization scale for the vocabulary embedding and output weights (logits).";
     valid := check_field (fun x => match x with
                                    | Some v => Assert.geq v 0%Q
                                    | None => Err TypeError
                                    end) |}.

Definition cross_entropy_splits_field : Field (option Z) :=
  {| desc := "Split the logit and cross-entropy computation into this many fragment, to reduce memory usage.";
     valid := skip_valid_if_none (check_field (fun x => Assert.gt x 0)) |}.

Definition logit_z_loss_field : Field Q :=
  {| desc := "Regularize the logits with Z-loss.";
     valid := check_field (fun x => Assert.geq x 0%Q) |}.

Definition logits_scale_factor_field : Field Q :=
  {| desc := "Multiply output logits by scale factor.";
     valid := check_field (fun x => Assert.geq x 0%Q) |}.

Definition teacher_softmax_temperature_field : Field Q :=
  {| desc := "Divides distillation target logits by this factor.";
     valid := check_field (fun x => Assert.geq x 0%Q) |}.

Definition embeddings_lr_scale_field : Field (option Q) :=
  {| desc := "Learning rate scale for the word embeddings.";
     valid := skip_valid_if_none (check_field (fun x => Assert.geq x 0%Q)) |}.

(** [super()._validate()], the field-by-field validation, for the fields
    that have a check. *)
Definition validate_fields (self : t) : result unit :=
  Field_validate max_position_embeddings_field (max_position_embeddings self) ;;
  Field_validate vocab_size_field (vocab_size self) ;;
  Field_validate prediction_heads_field (prediction_heads self) ;;
  Field_validate init_method_std_embed_field (init_method_std_embed self) ;;
  Field_validate cross_entropy_splits_field (cross_entropy_splits self) ;;
  Field_validate logit_z_loss_field (logit_z_loss self) ;;
  Field_validate logits_scale_factor_field (logits_scale_factor self) ;;
  Field_validate teacher_softmax_temperature_field (teacher_softmax_temperature self) ;;
  Field_validate embeddings_lr_scale_field (embeddings_lr_scale self).

(** The implicit defaults set first:
<<
    if self.language_model_loss_factor is None:
        if self.distillation_model is None:
            self.language_model_loss_factor = 1.0
        else:
            self.language_model_loss_factor = 0.0
    if self.use_position_embeddings is None:
        self.use_position_embeddings = isinstance(self.transformer.rotary, NoRotaryConfig)
    if self.init_method_std_embed is None:
        self.init_method_std_embed = self.transformer.init_method_std
    if self.init_method_max_embed is None:
        self.init_method_max_embed = self.transformer.init_method_max
    if self.init_method_min_embed is None:
        self.init_method_min_embed = self.transformer.init_method_min
>> *)
Definition set_implicit_default (self : t) : t :=
  {| transformer := transformer self;
     max_position_embeddings := max_position_embeddings self;
     vocab_size := vocab_size self;
     use_position_embeddings :=
       match use_position_embeddings self with
       | None => Some (TransformerConfig.rotary_is_NoRotaryConfig (transformer self))
       | Some b => Some b
       end;
     prediction_heads := prediction_heads self;
     init_method_std_embed :=
       match init_method_std_embed self with
       | None => TransformerConfig.init_method_std (transformer self)
       | Some x => Some x
       end;
     init_method_max_embed :=
       match init_method_max_embed self with
       | None => TransformerConfig.init_method_max (transformer self)
       | Some x => Some x
       end;
     init_method_min_embed :=
       match init_method_min_embed self with
       | None => TransformerConfig.init_method_min (transformer self)
       | Some x => Some x
       end;
     cross_entropy_splits := cross_entropy_splits self;
     distillation_model := distillation_model self;
     logit_z_loss := logit_z_loss self;
     language_model_loss_factor :=
       match language_model_loss_factor self with
       | None =>
           match distillation_model self with
           | None => Some 1%Q
           | Some _ => Some 0%Q
           end
       | Some x => Some x
       end;
     logits_scale_factor := logits_scale_factor self;
     teacher_softmax_temperature := teacher_softmax_temperature self;
     embeddings_lr_scale := embeddings_lr_scale self;
     prediction_loss_coefficient := prediction_loss_coefficient self |}.

(** [self.transformer = transformer] *)
Definition with_transformer (self : t) (transformer : TransformerConfig.t) : t :=
  {| transformer := transformer;
     max_position_embeddings := max_position_embeddings self;
     vocab_size := vocab_size self;
     use_position_embeddings := use_position_embeddings self;
     prediction_heads := prediction_heads self;
     init_method_std_embed := init_method_std_embed self;
     init_method_max_embed := init_method_max_embed self;
     init_method_min_embed := init_method_min_embed self;
     cross_entropy_splits := cross_entropy_splits self;
     distillation_model := distillation_model self;
     logit_z_loss := logit_z_loss self;
     language_model_loss_factor := language_model_loss_factor self;
     logits_scale_factor := logits_scale_factor self;
     teacher_softmax_temperature := teacher_softmax_temperature self;
     embeddings_lr_scale := embeddings_lr_scale self;
     prediction_loss_coefficient := prediction_loss_coefficient self |}.

(** [for coeff in self.prediction_loss_coefficient: Assert.geq(coeff, 0)] *)
Fixpoint assert_coefficients (coefficients : list Q) : result unit :=
  match coefficients with
  | [] => Ok tt
  | coeff :: rest => Assert.geq coeff 0%Q ;; assert_coefficients rest
  end.

Section validate.

(** [self.transformer.validate()]: the validation of the transformer config
    is not among the sources; it may raise, and may set attributes of the
    transformer config. *)
Variable transformer_validate : TransformerConfig.t -> outcome TransformerConfig.t.

(** [_validate]:
<<
    self.transformer.validate()
    with self._set_implicit_default():
        ...
    super()._validate()
    if self.init_method_max_embed is not None and self.init_method_min_embed is not None:
        Assert.leq(self.init_method_min_embed, self.init_method_max_embed)
    if self.distillation_model is not None:
        if self.prediction_heads > 1:
            raise NotImplementedError("Multi-token prediction not supported with distillation.")
    if isinstance(self.prediction_loss_coefficient, list):
        Assert.eq(len(self.prediction_loss_coefficient), self.prediction_heads)
        for coeff in self.prediction_loss_coefficient:
            Assert.geq(coeff, 0)
    if self.transformer.per_layer_lr_scale is not None:
        Assert.eq(
            len(self.transformer.per_layer_lr_scale), self.transformer.num_layers + self.prediction_heads - 1 + 1
        )
>>
    returning the config as validated. *)
Definition _validate (self : t) : outcome t :=
  transformer ← transformer_validate (transformer self);
  let self := set_implicit_default (with_transformer self transformer) in
  of_result (validate_fields self) ;;
  match init_method_max_embed self, init_method_min_embed self with
  | Some max_embed, Some min_embed => of_result (Assert_leq min_embed max_embed)
  | _, _ => Return tt
  end ;;
  match distillation_model self with
  | Some _ =>
      if 1 <? prediction_heads self then Raise NotImplementedError else Return tt
  | None => Return tt
  end ;;
  match prediction_loss_coefficient self with
  | Some coefficients =>
      of_result (Assert.eq (Z.of_nat (length coefficients)) (prediction_heads self)) ;;
      of_result (assert_coefficients coefficients)
  | None => Return tt
  end ;;
  match TransformerConfig.per_layer_lr_scale (transformer) with
  | Some scales =>
      of_result (Assert.eq (Z.of_nat (length scales))
                   (TransformerConfig.num_layers transformer + prediction_heads self - 1 + 1))
  | None => Return tt
  end ;;
  Return self.

End validate.

End LanguageModelBaseConfig.

(** A language-model config for the examples: two prediction heads on a
    transformer of four layers, a coefficient per head and a learning-rate
    scale per layer. *)
Definition example_transformer : TransformerConfig.t :=
  {| TransformerConfig.rotary_is_NoRotaryConfig := true;
     TransformerConfig.init_method_std := Some (1 # 50)%Q;
     TransformerConfig.init_method_max := Some (1 # 10)%Q;
     TransformerConfig.init_method_min := None;
     TransformerConfig.per_layer_lr_scale :=
       Some [None; Some 1%Q; Some 1%Q; Some (1 # 2)%Q; Some (1 # 2)%Q; Some 0%Q];
     TransformerConfig.num_layers := 4 |}.

Definition example_language_model : LanguageModelBaseConfig.t :=
  {| LanguageModelBaseConfig.transformer := example_transformer;
     LanguageModelBaseConfig.max_position_embeddings := 2048;
     LanguageModelBaseConfig.vocab_size := 49152;
     LanguageModelBaseConfig.use_position_embeddings := None;
     LanguageModelBaseConfig.prediction_heads := 2;
     LanguageModelBaseConfig.init_method_std_embed := None;
     LanguageModelBaseConfig.init_method_max_embed := None;
     LanguageModelBaseConfig.init_method_min_embed := Some (-1 # 10)%Q;
     LanguageModelBaseConfig.cross_entropy_splits := None;
     LanguageModelBaseConfig.distillation_model := None;
     LanguageModelBaseConfig.logit_z_loss := 0%Q;
     LanguageModelBaseConfig.language_model_loss_factor := None;
     LanguageModelBaseConfig.logits_scale_factor := 1%Q;
     LanguageModelBaseConfig.teacher_softmax_temperature := 1%Q;
     LanguageModelBaseConfig.embeddings_lr_scale := None;
     LanguageModelBaseConfig.prediction_loss_coefficient := Some [1%Q; (1 # 2)%Q] |}.

(** * [fast_llm.layers.ssm.discrete_mamba2] *)

(** In [DiscreteMamba2.forward], the length the input is padded to:
<<
    # Pad input to nearest multiple of chunklen
    padded_len = (1 + (seqlen - 1) // chunk_size) * chunk_size
>> *)
Definition padded_len (seqlen chunk_size : Z) : result Z :=
  chunks ← int_floordiv (seqlen - 1) chunk_size;
  Ok ((1 + chunks) * chunk_size).

From Stdlib Require SpecFloat.

(** * The code on machine numbers *)

(** The definitions above compute on exact rationals.  The ones of this part
    compute as the code does: a Python [float] is an IEEE 754 binary64
    number, with every operation rounded to the nearest, ties to even; a
    NumPy integer array holds 64-bit integers, whose sums wrap around. *)

(** ** Python floats *)

Module Float64.

Definition t : Type := SpecFloat.spec_float.

Definition prec : Z := 53.
Definition emax : Z := 1024.

Definition add : t -> t -> t := SpecFloat.SFadd prec emax.
Definition sub : t -> t -> t := SpecFloat.SFsub prec emax.
Definition mul : t -> t -> t := SpecFloat.SFmul prec emax.
Definition div : t -> t -> t := SpecFloat.SFdiv prec emax.

(** [x <= y], [x < y] and [x == y]: false when an operand is a NaN. *)
Definition leb : t -> t -> bool := SpecFloat.SFleb.
Definition ltb : t -> t -> bool := SpecFloat.SFltb.
Definition eqb : t -> t -> bool := SpecFloat.SFeqb.

Definition zero : t := SpecFloat.S754_zero false.

(** The double nearest to an integer, an infinity beyond the largest one. *)
Definition of_Z (z : Z) : t := SpecFloat.binary_normalize prec emax z 0 false.

(** [float(z)] of a Python int: an [OverflowError] when [z] is too large. *)
Definition of_int (z : Z) : outcome t :=
  match of_Z z with
  | SpecFloat.S754_infinity _ => Raise OverflowError
  | x => Return x
  end.

(** A literal [n/d], as [0.1] is [1/10]: the double nearest to the quotient,
    for [n] and [d] that are doubles themselves. *)
Definition literal (n d : Z) : t := div (of_Z n) (of_Z d).

(** The number a finite float stands for. *)
Definition to_Q (x : t) : option Q :=
  match x with
  | SpecFloat.S754_zero _ => Some 0%Q
  | SpecFloat.S754_finite s m e =>
      Some (inject_Z (SpecFloat.cond_Zopp s (Z.pos m)) * Qpower 2 e)%Q
  | SpecFloat.S754_infinity _ | SpecFloat.S754_nan => None
  end.

(** An integer of a float, [to_int] being the rounding: a [ValueError] on a
    NaN and an [OverflowError] on an infinity. *)
Definition integer (to_int : Q -> Z) (x : t) : outcome Z :=
  match x with
  | SpecFloat.S754_nan => Raise (Exception ValueError)
  | SpecFloat.S754_infinity _ => Raise OverflowError
  | _ => match to_Q x with
         | Some q => Return (to_int q)
         | None => Raise (Exception ValueError)
         end
  end.

(** [round(x)], to the nearest integer, a tie going to the even one, and
    [math.ceil(x)]. *)
Definition round : t -> outcome Z := integer round.
Definition ceil : t -> outcome Z := integer Qceiling.

End Float64.

(** ** Python numbers *)

(** A Python [int] or [float]. *)
Inductive number : Type :=
  | Int (z : Z)
  | Float (x : Float64.t).

(** A binary operation on numbers: exact on two ints; on a float and an int,
    the int is converted to a float first. *)
Definition arithmetic (on_int : Z -> Z -> Z) (on_float : Float64.t -> Float64.t -> Float64.t)
  (a b : number) : outcome number :=
  match a, b with
  | Int x, Int y => Return (Int (on_int x y))
  | Int x, Float y => x' ← Float64.of_int x; Return (Float (on_float x' y))
  | Float x, Int y => y' ← Float64.of_int y; Return (Float (on_float x y'))
  | Float x, Float y => Return (Float (on_float x y))
  end.

Definition number_add : number -> number -> outcome number := arithmetic Z.add Float64.add.
Definition number_sub : number -> number -> outcome number := arithmetic Z.sub Float64.sub.
Definition number_mul : number -> number -> outcome number := arithmetic Z.mul Float64.mul.

(** [round(a)] and [math.ceil(a)]: an int is its own. *)
Definition number_round (a : number) : outcome Z :=
  match a with
  | Int z => Return z
  | Float x => Float64.round x
  end.

Definition number_ceil (a : number) : outcome Z :=
  match a with
  | Int z => Return z
  | Float x => Float64.ceil x
  end.

(** ** NumPy arrays *)

Module np.

(** A one-dimensional array of [int64] or of [float64]. *)
Inductive ndarray : Type :=
  | int64 (a : list Z)
  | float64 (a : list Float64.t).

(** An [int64] or [float64] scalar. *)
Definition scalar : Type := number.

(** The value of a 64-bit integer after an operation that overflows: it
    wraps around. *)
Definition wrap (z : Z) : Z := (z + 2 ^ 63) mod 2 ^ 64 - 2 ^ 63.

(** The cast of an [int64] to a [float64]: the nearest double. *)
Definition to_float64 (x : scalar) : Float64.t :=
  match x with
  | Int z => Float64.of_Z z
  | Float x => x
  end.

Definition is_Int (x : number) : bool :=
  match x with
  | Int _ => true
  | Float _ => false
  end.


(** [np.array(p)] of a list of Python numbers: an [int64] array for a list
    of ints that is not empty, a [float64] array otherwise, the ints of the
    list cast.  The ints are taken to fit [int64]: NumPy makes an array of
    another kind of a list with a larger one, and the properties of the
    arrays are stated for lists on which [fits_int64] holds. *)
Definition array (p : list number) : ndarray :=
  match p with
  | _ :: _ =>
      if forallb is_Int p
      then int64 (map (fun x => match x with Int z => z | Float _ => 0 end) p)
      else float64 (map to_float64 p)
  | [] => float64 []
  end.

(** [np.all(x >= 0)] *)
Definition all_geq_0 (x : ndarray) : bool :=
  match x with
  | int64 a => forallb (fun v => 0 <=? v) a
  | float64 a => forallb (fun v => Float64.leb Float64.zero v) a
  end.

(** The sum of a block of less than 8 elements, and of what is left over of
    a longer one: one after the other. *)
Definition sum_loop (res : Float64.t) (a : list Float64.t) : Float64.t :=
  fold_left Float64.add a res.

(** The eight running sums of a block of 8 to 128 elements, each over every
    eighth element. *)
Fixpoint sum_strided (blocks : nat) (r a : list Float64.t)
  : list Float64.t * list Float64.t :=
  match blocks with
  | O => (r, a)
  | S blocks' => sum_strided blocks' (zip_with Float64.add r (take 8 a)) (drop 8 a)
  end.

(** The pairwise summation of a [float64] array, as NumPy reduces a
    contiguous array with [add]: blocks of at most 128 elements are summed
    with eight running sums, longer arrays are split in two. *)
Fixpoint pairwise_sum (fuel : nat) (a : list Float64.t) : Float64.t :=
  let n := length a in
  if (n <? 8)%nat then sum_loop (SpecFloat.S754_zero true) a
  else if (n <=? 128)%nat then
    let '(r, rest) := sum_strided (n / 8 - 1) (take 8 a) (drop 8 a) in
    match r with
    | [r0; r1; r2; r3; r4; r5; r6; r7] =>
        sum_loop
          (Float64.add (Float64.add (Float64.add r0 r1) (Float64.add r2 r3))
                       (Float64.add (Float64.add r4 r5) (Float64.add r6 r7)))
          rest
    | _ => Float64.zero
    end
  else
    match fuel with
    | O => Float64.zero
    | S fuel' =>
        let n2 := (n / 2 - (n / 2) mod 8)%nat in
        Float64.add (pairwise_sum fuel' (take n2 a)) (pairwise_sum fuel' (drop n2 a))
    end.

(** [x.sum()]: the [int64] sum wraps around; the [float64] sum is the
    pairwise one, added to the initial 0.  Whether a sum that is zero comes
    out as [0.0] or [-0.0] depends on the version of NumPy, and is no
    different to the code below, which compares it with 0. *)
Definition sum (x : ndarray) : scalar :=
  match x with
  | int64 a => Int (wrap (fold_left Z.add a 0))
  | float64 a => Float (Float64.add Float64.zero (pairwise_sum (length a) a))
  end.

(** [x > 0] on a scalar. *)
Definition gt_0 (x : scalar) : bool :=
  match x with
  | Int z => 0 <? z
  | Float x => Float64.ltb Float64.zero x
  end.

(** [x / y] for an array [x] and a scalar [y]: a [float64] array, the
    operands cast to [float64] first. *)
Definition true_divide (x : ndarray) (y : scalar) : list Float64.t :=
  match x with
  | int64 a => map (fun v => Float64.div (Float64.of_Z v) (to_float64 y)) a
  | float64 a => map (fun v => Float64.div v (to_float64 y)) a
  end.

Definition len (x : ndarray) : nat :=
  match x with
  | int64 a => length a
  | float64 a => length a
  end.

(** [np.hstack((0, x))]: the array with a 0 put before it. *)
Definition hstack_0 (x : ndarray) : ndarray :=
  match x with
  | int64 a => int64 (0 :: a)
  | float64 a => float64 (Float64.zero :: a)
  end.

(** The running results of [add] over [y], from [acc] on. *)
Fixpoint accumulate {A : Type} (add : A -> A -> A) (acc : A) (y : list A) : list A :=
  match y with
  | [] => []
  | v :: y' => add acc v :: accumulate add (add acc v) y'
  end.

(** [y.cumsum()]: the first element, then each element added to the running
    sum before it; the sums of [int64] wrap around, the ones of [float64]
    are rounded. *)
Definition cumsum (y : ndarray) : ndarray :=
  match y with
  | int64 (v :: a) => int64 (v :: accumulate (fun s w => wrap (s + w)) v a)
  | float64 (v :: a) => float64 (v :: accumulate Float64.add v a)
  | int64 [] | float64 [] => y
  end.

End np.

Module Machine.

(** [normalize_probabilities(p)] with [return_array=False], of
    [fast_llm.utils]:
<<
    p = np.array(p)
    Assert.custom(lambda x: np.all(x >= 0), p)
    p_sum = p.sum()
    Assert.gt(p_sum, 0)
    out = p / p_sum
    return out if return_array else out.tolist()
>> *)
Definition normalize_probabilities (p : list number) : outcome (list Float64.t) :=
  let p := np.array p in
  of_result (Assert.custom np.all_geq_0 p) ;;
  let p_sum := np.sum p in
  of_result (Assert.assert (np.gt_0 p_sum)) ;;
  let out := np.true_divide p p_sum in
  Return out.

(** ** The dataset configurations, with floats *)

(** A concrete [IndexedDatasetConfig] of the external provider, given by
    what its [build()] does: it returns a corpus, or raises. *)
Record IndexedDatasetConfig : Type := { indexed_build : outcome IndexedDataset.t }.

(** The configs that build a samplable dataset; [begin] and [end] are
    declared as floats, with the ints 0 and 1 as defaults. *)
Inductive SamplableDatasetConfig : Type :=
  | IndexedConfig (c : IndexedDatasetConfig)
  | ConcatenatedDatasetConfig (name : string) (datasets : list IndexedDatasetConfig)
  | DatasetSliceConfig (dataset : IndexedDatasetConfig) (begin end_ : number).

(** The configs that resolve to a sampled dataset. *)
Inductive SampledDatasetConfig : Type :=
  | Samplable (c : SamplableDatasetConfig)
  | SampledDatasetUpdateConfig (sampling : SamplingConfig) (dataset : SampledDatasetConfig)
  | BlendedDatasetConfig (name : string) (datasets : list SampledDatasetConfig)
      (weights : list number) (legacy : bool).

(** *** Validation *)

(** The one check among the fields of these classes:
    [valid=check_field(functools.partial(Assert.custom, lambda x: len(x) > 0))]
    on the datasets of [ConcatenatedDatasetConfig]. *)
Definition ConcatenatedDatasetConfig_datasets : Field (list IndexedDatasetConfig) :=
  {| desc := "The datasets to concatenate.";
     valid := check_field (Assert.custom (fun x => py_lt 0%nat (length x))) |}.

(** The field-by-field validation of the configs that build a samplable
    dataset, none of which has a [_validate] of its own; the configs of the
    external provider are taken as valid. *)
Definition SamplableDatasetConfig_validate (c : SamplableDatasetConfig)
  : outcome SamplableDatasetConfig :=
  match c with
  | IndexedConfig c => Return (IndexedConfig c)
  | ConcatenatedDatasetConfig name datasets =>
      of_result (Field_validate ConcatenatedDatasetConfig_datasets datasets) ;;
      Return (ConcatenatedDatasetConfig name datasets)
  | DatasetSliceConfig dataset begin end_ =>
      Return (DatasetSliceConfig dataset begin end_)
  end.

(** Modelled from the spec: the framework validating the configs nested in a
    list field, one after the other. *)
Definition validate_nested {C : Type} (validate : C -> outcome C)
  : list C -> outcome (list C) :=
  fix validate_nested (l : list C) : outcome (list C) :=
    match l with
    | [] => Return []
    | c :: l' =>
        c' ← validate c;
        r ← validate_nested l';
        Return (c' :: r)
    end.

(** Validation of a sampled-dataset config; [BlendedDatasetConfig._validate]
    is
<<
    self.weights = normalize_probabilities(self.weights)
    super()._validate()
    Assert.geq(len(self.datasets), 2)
    Assert.eq(len(self.datasets), len(self.weights))
>>
    where [super()._validate()] is the field-by-field validation: no field
    of the class has a check, and the nested configs are validated. *)
Fixpoint validate (c : SampledDatasetConfig) : outcome SampledDatasetConfig :=
  match c with
  | Samplable c =>
      c' ← SamplableDatasetConfig_validate c;
      Return (Samplable c')
  | SampledDatasetUpdateConfig sampling dataset =>
      dataset' ← validate dataset;
      Return (SampledDatasetUpdateConfig sampling dataset')
  | BlendedDatasetConfig name datasets weights legacy =>
      weights' ← normalize_probabilities weights;
      let weights' := map Float weights' in
      datasets' ← validate_nested validate datasets;
      of_result (Assert.geq (length datasets') 2%nat) ;;
      of_result (Assert.eq (length datasets') (length weights')) ;;
      Return (BlendedDatasetConfig name datasets' weights' legacy)
  end.


(** *** Building *)

(** Modelled from the spec: [fast_llm.data.dataset.indexed.DatasetSlice] is
    not among the sources.  A slice keeps the bounds it is built with, and
    its length is [end - begin].  Its name is the f-string
    [f"{dataset.name}_{self.begin}_{self.end}"], kept as its three
    interpolated parts. *)
Module DatasetSlice.
Record t : Type := {
  name : string * number * number;
  dataset : IndexedDataset.t;
  begin : Z;
  end_ : Z
}.

Definition len (d : t) : Z := end_ d - begin d.
End DatasetSlice.

Inductive SamplableDataset : Type :=
  | Indexed (d : IndexedDataset.t)
  | Concatenated (name : string) (datasets : list IndexedDataset.t)
  | Slice (d : DatasetSlice.t).

(** [[dataset.build() for dataset in self.datasets]] *)
Fixpoint build_all (datasets : list IndexedDatasetConfig) : outcome (list IndexedDataset.t) :=
  match datasets with
  | [] => Return []
  | dataset :: datasets' =>
      d ← indexed_build dataset;
      ds ← build_all datasets';
      Return (d :: ds)
  end.

(** [DatasetSliceConfig._build]:
<<
    dataset = self.dataset.build()
    size = len(dataset)
    return cls(
        f"{dataset.name}_{self.begin}_{self.end}",
        dataset,
        round(self.begin * size),
        round(self.end * size),
    )
>> *)
Definition DatasetSliceConfig_build (dataset : IndexedDatasetConfig) (begin end_ : number)
  : outcome DatasetSlice.t :=
  dataset ← indexed_build dataset;
  let size := IndexedDataset.len dataset in
  lo ← (x ← number_mul begin (Int size); number_round x);
  hi ← (x ← number_mul end_ (Int size); number_round x);
  Return {| DatasetSlice.name := (IndexedDataset.name dataset, begin, end_);
            DatasetSlice.dataset := dataset;
            DatasetSlice.begin := lo;
            DatasetSlice.end_ := hi |}.

(** [build()]; [ConcatenatedDatasetConfig._build] is
    [return cls(self.name, [dataset.build() for dataset in self.datasets])]. *)
Definition build (c : SamplableDatasetConfig) : outcome SamplableDataset :=
  match c with
  | IndexedConfig c => d ← indexed_build c; Return (Indexed d)
  | ConcatenatedDatasetConfig name datasets =>
      ds ← build_all datasets; Return (Concatenated name ds)
  | DatasetSliceConfig dataset begin end_ =>
      d ← DatasetSliceConfig_build dataset begin end_; Return (Slice d)
  end.

(** *** Resolution: [build_and_sample] *)

(** Computations that read and change the heap, and may raise any of the
    exceptions. *)
Definition H (A : Type) : Type := heap -> outcome (A * heap).

#[global] Instance H_ret : MRet H := fun A a h => Return (a, h).

#[global] Instance H_bind : MBind H := fun A B k m h =>
  match m h with
  | Return (a, h') => k a h'
  | Raise e => Raise e
  end.

Definition of_M {A : Type} (m : M A) : H A := fun h => of_result (m h).

Definition of_outcome {A : Type} (r : outcome A) : H A := fun h =>
  match r with
  | Return a => Return (a, h)
  | Raise e => Raise e
  end.

(** What the arithmetic of the legacy count computes with: a number, or a
    complex number, of which only that it is one matters. *)
Inductive value : Type :=
  | Real (a : number)
  | Complex.

Section resolution.

(** What [sample] of the external provider returns, and [sample] itself:
    given the dataset built and the sampling context, it may read and change
    the heap ([get_next_rank] advances a counter), and it may raise. *)
Context {Sampled : Type}.
Variable sample : SamplableDataset -> ref -> H Sampled.

(** [pow(x, 0.5)] of the C library, which Python calls for a base that is
    finite, positive and not 1. *)
Variable libm_pow_half : Float64.t -> Float64.t.

(** [a ** 0.5]: an int is converted to a float; of a float, a NaN gives
    itself, an infinity the positive one, a zero [0.0] and 1 gives 1,
    without the C library; a negative base gives a complex number. *)
Definition pow_half (a : number) : outcome value :=
  x ← match a with
      | Int z => Float64.of_int z
      | Float x => Return x
      end;
  Return match x with
         | SpecFloat.S754_nan => Real (Float x)
         | SpecFloat.S754_infinity _ => Real (Float (SpecFloat.S754_infinity false))
         | SpecFloat.S754_zero _ => Real (Float Float64.zero)
         | SpecFloat.S754_finite true _ _ => Complex
         | SpecFloat.S754_finite false _ _ =>
             if Float64.eqb x (Float64.of_Z 1) then Real (Float (Float64.of_Z 1))
             else Real (Float (libm_pow_half x))
         end.

(** [a op b] where [b] may be complex: the result is complex then, an int
    [a] being converted to a float on the way. *)
Definition with_complex (op : number -> number -> outcome number) (a : number) (b : value)
  : outcome value :=
  match b with
  | Real b => c ← op a b; Return (Real c)
  | Complex =>
      match a with
      | Int z => Float64.of_int z ;; Return Complex
      | Float _ => Return Complex
      end
  end.

(** The sample count requested from a branch of weight [weight]:
<<
    num_samples=(
        math.ceil(
            weight
            * (
                sampling.parameters.num_samples
                + 5 * (sampling.parameters.num_samples * (1 - weight)) ** 0.5
            )
        )
        if self.legacy
        else math.ceil(weight * sampling.parameters.num_samples) + 1
    ),
>>
    [math.ceil] rejects a complex number with a [TypeError]. *)
Definition blended_num_samples (legacy : bool) (weight : number) (num_samples : Z)
  : outcome Z :=
  if legacy then
    rest ← number_sub (Int 1) weight;
    under ← number_mul (Int num_samples) rest;
    root ← pow_half under;
    spread ← with_complex number_mul (Int 5) root;
    total ← with_complex number_add (Int num_samples) spread;
    scaled ← with_complex number_mul weight total;
    match scaled with
    | Real scaled => number_ceil scaled
    | Complex => Raise (Exception TypeError)
    end
  else
    scaled ← number_mul weight (Int num_samples);
    n ← number_ceil scaled;
    Return (n + 1).

(** The context a branch is resolved with:
<<
    dataclasses.replace(
        sampling,
        parameters=dataclasses.replace(sampling.parameters, num_samples=...),
        # TODO: Seed may not be unique for nested blended datasets.
        config=sampling.config.to_copy({"seed": sampling.config.seed + i * (0 if self.legacy else 697)}),
    )
>> *)
Definition blended_sampling (legacy : bool) (sampling : ref) (i : Z) (weight : number)
  : H ref :=
  s ← of_M (deref sampling);
  n ← of_outcome (blended_num_samples legacy weight (num_samples (parameters s)));
  of_M (new_SamplingData
          {| config := to_copy (config s) {[ "seed"%string := blended_seed legacy s i ]};
             parameters := {| num_samples := n |};
             cache_directory := cache_directory s;
             distributed := distributed s;
             dataset_name := dataset_name s;
             _rank_counter := _rank_counter s |}).

(** The list comprehension of [BlendedDatasetConfig.build_and_sample], from
    index [i] on, [build_and_sample] being the method of the branches:
<<
    sampled_datasets = [
        dataset.build_and_sample(dataclasses.replace(sampling, ...))
        for i, (dataset, weight) in enumerate(zip(self.datasets, self.weights, strict=True))
    ]
>>
    [zip(..., strict=True)] raises a [ValueError] once one of the two lists is
    exhausted before the other. *)
Definition blended_branches {C D : Type} (build_and_sample : C -> ref -> H D)
  (legacy : bool) (sampling : ref) : Z -> list C -> list number -> H (list D) :=
  fix branches (i : Z) (datasets : list C) (weights : list number) : H (list D) :=
    match datasets, weights with
    | [], [] => mret []
    | dataset :: datasets', weight :: weights' =>
        data ← blended_sampling legacy sampling i weight;
        x ← build_and_sample dataset data;
        xs ← branches (i + 1) datasets' weights';
        mret (x :: xs)
    | _, _ => of_outcome (Raise (Exception ValueError))
    end.

(** The resolved output: what the provider's [sample] returned, or the
    arguments of [BlendedDataset(name, datasets, weights, sampling_config)]. *)
Inductive SampledDataset : Type :=
  | Provided (d : Sampled)
  | BlendedDataset (name : string) (datasets : list SampledDataset)
      (weights : list number) (sampling : ref).

(** [build_and_sample] of the three kinds of sampled-dataset config.
    - [SamplableDatasetConfig]: [return self.build().sample(sampling)]
    - [SampledDatasetUpdateConfig]:
      [return self.dataset.build_and_sample(data.update_config(self.sampling))]
    - [BlendedDatasetConfig]: the branches, then
      [return BlendedDataset(self.name, sampled_datasets, self.weights, sampling)] *)
Fixpoint build_and_sample (c : SampledDatasetConfig) (sampling : ref)
  : H SampledDataset :=
  match c with
  | Samplable c =>
      dataset ← of_outcome (build c);
      d ← sample dataset sampling;
      mret (Provided d)
  | SampledDatasetUpdateConfig update dataset =>
      data ← of_M (update_config sampling update);
      build_and_sample dataset data
  | BlendedDatasetConfig name datasets weights legacy =>
      sampled_datasets ← blended_branches build_and_sample legacy sampling 0 datasets weights;
      mret (BlendedDataset name sampled_datasets weights sampling)
  end.

End resolution.

End Machine.



(** Weights for the examples: [1.0, 4.0, 1.0], and the smallest positive
    float beside [1e10]. *)
Definition example_weights_141 : list number :=
  [Float (Float64.of_Z 1); Float (Float64.of_Z 4); Float (Float64.of_Z 1)].



(** A leaf for the examples, the corpus of ten samples, and blends of it. *)
Definition example_machine_leaf : Machine.SampledDatasetConfig :=
  Machine.Samplable
    (Machine.IndexedConfig {| Machine.indexed_build := Return example_corpus |}).

Definition example_machine_blended (weights : list number) (legacy : bool)
  : Machine.SampledDatasetConfig :=
  Machine.BlendedDatasetConfig "blended"
    (map (fun _ => example_machine_leaf) weights) weights legacy.

Definition example_machine_indexed : Machine.IndexedDatasetConfig :=
  {| Machine.indexed_build := Return example_corpus |}.

(** A provider for the examples: its [sample] returns the context it is
    given; and a C library whose [pow(x, 0.5)] is the square root, rounded
    to the nearest double. *)
Definition example_sample (dataset : Machine.SamplableDataset) (sampling : ref)
  : Machine.H ref :=
  mret sampling.

Definition example_libm_pow_half : Float64.t -> Float64.t :=
  SpecFloat.SFsqrt Float64.prec Float64.emax.


Definition example_weights_quarters : list number :=
  [Float (Float64.literal 1 4); Float (Float64.literal 3 4)].

(** [padded_cumsum(x)], of [fast_llm.utils]:
<<
    y = np.hstack((0, x))
    return y.cumsum(out=y)
>> *)
Definition padded_cumsum (x : np.ndarray) : np.ndarray :=
  let y := np.hstack_0 x in
  np.cumsum y.

(** [sum(x)] of a list of integers, exact. *)
Definition sum_ints (x : list Z) : Z := fold_right Z.add 0 x.

(** ** [get_lr_scale] *)

(** What is passed as [lr_scale], and returned: [None], a float, a tuple of
    floats and [None]s, or a value of another type, here an [int]. *)
Inductive lr_scale_value : Type :=
  | LrNone
  | LrFloat (x : Float64.t)
  | LrTuple (t : list (option Float64.t))
  | LrInt (z : Z).

(** A [layer_lr_scale], a float or [None], as a value returned. *)
Definition lr_scale_of_option (x : option Float64.t) : lr_scale_value :=
  match x with
  | Some v => LrFloat v
  | None => LrNone
  end.

(** [get_lr_scale(lr_scale, layer_lr_scale)]:
<<
    if lr_scale is None:
        return layer_lr_scale
    if layer_lr_scale is None:
        return lr_scale
    if isinstance(lr_scale, float):
        return lr_scale * layer_lr_scale
    if isinstance(lr_scale, tuple):
        return tuple(lrs * layer_lr_scale if lrs is not None else layer_lr_scale for lrs in lr_scale)
    raise ValueError(f"Invalid lr_scale: {lr_scale} (type {type(lr_scale)})")
>> *)
Definition get_lr_scale (lr_scale : lr_scale_value) (layer_lr_scale : option Float64.t)
  : result lr_scale_value :=
  match lr_scale, layer_lr_scale with
  | LrNone, _ => Ok (lr_scale_of_option layer_lr_scale)
  | _, None => Ok lr_scale
  | LrFloat x, Some l => Ok (LrFloat (Float64.mul x l))
  | LrTuple t, Some l =>
      Ok (LrTuple (map (fun lrs => match lrs with
                                   | Some v => Some (Float64.mul v l)
                                   | None => Some l
                                   end) t))
  | LrInt _, Some _ => Err ValueError
  end.

(** ** The provider and the sampling contexts *)

(** [sample] leaves the sampling contexts as they are: when it returns,
    every [SamplingData] that existed is at the same reference with the same
    attributes. *)
Definition keeps_contexts {Sampled : Type}
  (sample : Machine.SamplableDataset -> ref -> Machine.H Sampled) : Prop :=
  forall dataset sampling h d h',
    sample dataset sampling h = Return (d, h') ->
    sampling_datas h `prefix_of` sampling_datas h'.

(** A blend of two leaves inside a blend, for the examples. *)
Definition example_machine_nested : Machine.SampledDatasetConfig :=
  Machine.BlendedDatasetConfig "outer"
    [Machine.BlendedDatasetConfig "inner"
       [example_machine_leaf; example_machine_leaf] example_weights_quarters false;
     example_machine_leaf]
    example_weights_quarters false.

(** * Properties *)

(** Unfolding the binds and returns of the two monads. *)
Ltac simpl_result :=
  cbv [mbind mret result_bind result_ret] in *; simpl in *.

Ltac simpl_M :=
  cbv [mbind mret M_bind M_ret raise lift] in *; simpl in *.

(** ** Helper lemmas on the checks *)

Lemma assert_Ok (c : bool) : Assert.assert c = Ok tt <-> c = true.
Proof. destruct c; simpl; split; intros H; congruence. Qed.

Lemma py_lt_Q_spec (x y : Q) : py_lt x y = true <-> (x < y)%Q.
Proof.
  simpl. rewrite negb_true_iff. split.
  - intros H. apply Qnot_le_lt. intros Hle.
    apply Qle_bool_iff in Hle. congruence.
  - intros H. destruct (Qle_bool y x) eqn:E; [|reflexivity].
    apply Qle_bool_iff in E. exfalso. revert E. apply Qlt_not_le, H.
Qed.

Lemma np_all_geq_0_spec (p : list Q) :
  np_all_geq_0 p = true <-> Forall (fun v => 0 <= v)%Q p.
Proof.
  unfold np_all_geq_0. induction p as [|v p IH]; simpl.
  - split; [constructor | reflexivity].
  - rewrite andb_true_iff, IH, Forall_cons, Qle_bool_iff. reflexivity.
Qed.

Lemma np_sum_map_div (p : list Q) (s : Q) :
  ~ (s == 0)%Q -> (np_sum (map (fun v => v / s) p) == np_sum p / s)%Q.
Proof.
  intros Hs. induction p as [|v p IH]; simpl.
  - field. exact Hs.
  - rewrite IH. field. exact Hs.
Qed.

(** The two checks of [normalize_probabilities] pass exactly on the lists of
    non-negative numbers of positive sum, and the result is then the list
    divided by its sum. *)
Lemma normalize_probabilities_Ok (p out : list Q) :
  normalize_probabilities p = Ok out <->
  Forall (fun v => 0 <= v)%Q p /\ (0 < np_sum p)%Q
  /\ out = map (fun v => v / np_sum p)%Q p.
Proof.
  unfold normalize_probabilities, Assert.custom, Assert.gt.
  destruct (np_all_geq_0 p) eqn:Hall; simpl.
  - apply np_all_geq_0_spec in Hall.
    destruct (negb (Qle_bool (np_sum p) 0)) eqn:Hsum; simpl.
    + apply (py_lt_Q_spec 0 (np_sum p)) in Hsum.
      split.
      * intros H; injection H as <-; auto.
      * intros (_ & _ & ->); reflexivity.
    + split; [discriminate|].
      intros (_ & Hpos & _). apply (py_lt_Q_spec 0 (np_sum p)) in Hpos.
      simpl in Hpos. congruence.
  - split; [discriminate|].
    intros (Hnn & _ & _). apply np_all_geq_0_spec in Hnn. congruence.
Qed.

Lemma Forall_nonneg_map_div (p : list Q) (s : Q) :
  (0 < s)%Q -> Forall (fun v => 0 <= v)%Q p ->
  Forall (fun v => 0 <= v)%Q (map (fun v => v / s)%Q p).
Proof.
  intros Hs. induction 1 as [|v p Hv _ IH]; simpl; constructor; auto.
  apply Qle_shift_div_l; [exact Hs|]. Lqa.lra.
Qed.

Lemma np_sum_normalized (p : list Q) :
  (0 < np_sum p)%Q -> (np_sum (map (fun v => v / np_sum p) p) == 1)%Q.
Proof.
  intros Hs.
  assert (Hne : ~ (np_sum p == 0)%Q) by (intros E; rewrite E in Hs; Lqa.lra).
  rewrite np_sum_map_div by exact Hne. field. exact Hne.
Qed.

Lemma map_div_one (l : list Q) (t : Q) :
  (t == 1)%Q -> Forall2 Qeq (map (fun v => v / t)%Q l) l.
Proof.
  intros Ht. induction l as [|v l IH]; simpl; constructor; auto.
  rewrite Ht. field.
Qed.

(** ** [normalize_probabilities] *)

(** C10.  Over exact arithmetic [normalize_probabilities] is idempotent: on
    a list of non-negative numbers of positive sum it succeeds, it succeeds
    again on its own output, and the second output is the first, element by
    element. *)
Theorem normalize_probabilities_idempotent (p : list Q) :
  Forall (fun v => 0 <= v)%Q p -> (0 < np_sum p)%Q ->
  exists out out',
    normalize_probabilities p = Ok out
    /\ normalize_probabilities out = Ok out'
    /\ Forall2 Qeq out' out.
Proof.
  intros Hnn Hpos.
  pose proof (np_sum_normalized p Hpos) as Hone.
  set (out := map (fun v => v / np_sum p)%Q p) in *.
  exists out, (map (fun v => v / np_sum out)%Q out).
  split; [apply normalize_probabilities_Ok; auto|].
  split.
  - apply normalize_probabilities_Ok. split; [|split; [|reflexivity]].
    + apply Forall_nonneg_map_div; assumption.
    + rewrite Hone. reflexivity.
  - apply map_div_one, Hone.
Qed.

Lemma normalize_probabilities_idempotent_witness :
  exists out out',
    normalize_probabilities [2; 6]%Q = Ok out
    /\ normalize_probabilities out = Ok out'
    /\ Forall2 Qeq out' out.
Proof.
  apply (normalize_probabilities_idempotent [2; 6]%Q).
  - repeat constructor; unfold Qle; simpl; lia.
  - reflexivity.
Defined.

(** ** Rank rotation *)

(** With the class [itertools.count] in [_rank_counter], a call of
    [get_next_rank] builds a new iterator, takes its first value and leaves
    the iterator behind, advanced once: the call returns [0 % world_size]. *)
Lemma get_next_rank_itertools_count (self : ref) (s : SamplingData) (h : heap) :
  sampling_datas h !! self = Some s ->
  _rank_counter s = itertools_count ->
  world_size_of s <> 0 ->
  get_next_rank self h
  = Ok (0, {| sampling_datas := sampling_datas h; counts := counts h ++ [1] |}).
Proof.
  intros Hs Hc Hw. unfold get_next_rank, deref, world_size_of in *.
  simpl_M. rewrite Hs, Hc. simpl. unfold new_count, next, py_mod. simpl.
  rewrite list_lookup_middle by reflexivity.
  apply Z.eqb_neq in Hw. rewrite Hw. simpl_M.
  rewrite Z.mod_0_l by (apply Z.eqb_neq; exact Hw).
  rewrite insert_app_r_alt by reflexivity.
  rewrite Nat.sub_diag. reflexivity.
Qed.

(** Successive calls all return 0, each leaving one more iterator behind. *)
Lemma get_next_ranks_itertools_count (k : nat) (self : ref) (s : SamplingData) (h : heap) :
  sampling_datas h !! self = Some s ->
  _rank_counter s = itertools_count ->
  world_size_of s <> 0 ->
  get_next_ranks k self h
  = Ok (repeat 0 k,
        {| sampling_datas := sampling_datas h; counts := counts h ++ repeat 1 k |}).
Proof.
  intros Hs Hc Hw. revert h Hs.
  induction k as [|k IH]; intros h Hs; simpl.
  - simpl_M. rewrite app_nil_r. destruct h; reflexivity.
  - cbv [mbind M_bind].
    rewrite (get_next_rank_itertools_count self s h Hs Hc Hw).
    rewrite IH by exact Hs. simpl_M.
    rewrite <- app_assoc. reflexivity.
Qed.

(** With an iterator object in [_rank_counter], as the annotation
    [typing.Iterator[int]] has it, the call [self._rank_counter()] raises. *)
Lemma get_next_rank_count_object (self it : ref) (s : SamplingData) (h : heap) :
  sampling_datas h !! self = Some s ->
  _rank_counter s = count_object it ->
  get_next_rank self h = Err TypeError.
Proof.
  intros Hs Hc. unfold get_next_rank, deref. simpl_M. rewrite Hs, Hc. reflexivity.
Qed.

(** C2 (the code departs from the claim).  For [world_size = 4], eight
    successive calls of [get_next_rank] on one [SamplingData] yield
    [[0,0,0,0,0,0,0,0]], not [[0,1,2,3,0,1,2,3]]: every call builds its own
    [itertools.count()], so the heap ends with eight iterators, each advanced
    once; a copy made by [update_config] behaves the same. *)
Theorem get_next_rank_eight_calls :
  get_next_ranks 8 0%nat (example_heap 4 100)
  = Ok ([0; 0; 0; 0; 0; 0; 0; 0],
        {| sampling_datas := [example_sampling 4 100];
           counts := [1; 1; 1; 1; 1; 1; 1; 1] |})
  /\ (copy ← update_config 0%nat {| seed_field := Some 1 |};
      get_next_ranks 8 copy) (example_heap 4 100)
     = Ok ([0; 0; 0; 0; 0; 0; 0; 0],
           {| sampling_datas :=
                [example_sampling 4 100;
                 {| config := {| seed_field := Some 1 |};
                    parameters := parameters (example_sampling 4 100);
                    cache_directory := None;
                    distributed := distributed (example_sampling 4 100);
                    dataset_name := "dataset";
                    _rank_counter := itertools_count |}];
              counts := [1; 1; 1; 1; 1; 1; 1; 1] |}).
Proof. split; vm_compute; reflexivity. Qed.

(** ** The heap during resolution *)

Lemma M_bind_Ok {A B : Type} (m : M A) (k : A -> M B) (h h' : heap) (b : B) :
  (m ≫= k) h = Ok (b, h') <->
  exists a h1, m h = Ok (a, h1) /\ k a h1 = Ok (b, h').
Proof.
  cbv [mbind M_bind]. destruct (m h) as [[a h1]|e]; split.
  - intros H. exists a, h1. auto.
  - intros (a' & h1' & E & H). injection E as <- <-. exact H.
  - discriminate.
  - intros (a' & h1' & E & _). discriminate.
Qed.




Lemma deref_Ok (r : ref) (h h' : heap) (s : SamplingData) :
  deref r h = Ok (s, h') <-> sampling_datas h !! r = Some s /\ h' = h.
Proof.
  unfold deref. destruct (sampling_datas h !! r) as [d|]; split.
  - intros H; injection H as <- <-; auto.
  - intros [E ->]. injection E as <-. reflexivity.
  - discriminate.
  - intros [E _]. discriminate.
Qed.

Lemma new_SamplingData_Ok (d : SamplingData) (h h' : heap) (r : ref) :
  new_SamplingData d h = Ok (r, h') ->
  r = length (sampling_datas h)
  /\ heap_extends h h' /\ sampling_datas h' !! r = Some d.
Proof.
  unfold new_SamplingData. intros H; injection H as <- <-. simpl.
  split; [reflexivity|]. split.
  - split; [apply prefix_app_r; reflexivity | reflexivity].
  - apply list_lookup_middle. reflexivity.
Qed.

(** [update_config] allocates the copy and touches nothing else. *)
Lemma update_config_Ok (self : ref) (update : SamplingConfig) (h h' : heap) (r : ref) :
  update_config self update h = Ok (r, h') ->
  exists s,
    sampling_datas h !! self = Some s
    /\ r = length (sampling_datas h)
    /\ heap_extends h h'
    /\ sampling_datas h' !! r
       = Some {| config := from_dict_update (config s) (to_dict update);
                 parameters := parameters s;
                 cache_directory := cache_directory s;
                 distributed := distributed s;
                 dataset_name := dataset_name s;
                 _rank_counter := _rank_counter s |}.
Proof.
  unfold update_config. intros H.
  apply M_bind_Ok in H. destruct H as (s & h1 & Hd & Hn).
  apply deref_Ok in Hd. destruct Hd as [Hs ->].
  apply new_SamplingData_Ok in Hn. destruct Hn as (Hlen & Hext & Hr).
  exists s. auto.
Qed.






(** ** Parameter override *)




(** ** Blended datasets: the context of each branch *)

Lemma blended_branches_length {C D : Type} (rec : C -> ref -> M D)
  (legacy : bool) (sampling : ref) (datasets : list C) :
  forall weights i h xs h',
    blended_branches rec legacy sampling i datasets weights h = Ok (xs, h') ->
    length datasets = length weights /\ length xs = length datasets.
Proof.
  induction datasets as [|c datasets IH]; intros [|w weights] i h xs h' H; simpl in H;
    try discriminate.
  - injection H as <- <-. auto.
  - apply M_bind_Ok in H. destruct H as (data & h1 & _ & H).
    apply M_bind_Ok in H. destruct H as (x & h2 & _ & H).
    apply M_bind_Ok in H. destruct H as (xs' & h3 & Hxs & H).
    injection H as <- <-.
    destruct (IH _ _ _ _ _ Hxs) as [E1 E2]. simpl. auto.
Qed.

Lemma seed_to_copy (c : SamplingConfig) (v : Z) :
  seed (to_copy c {[ "seed"%string := v ]}) = v.
Proof.
  unfold seed, to_copy, from_dict_update. simpl.
  rewrite lookup_singleton_eq. reflexivity.
Qed.

(** ** Validation at construction *)

Lemma result_bind_Ok {A B : Type} (r : result A) (k : A -> result B) (b : B) :
  (r ≫= k) = Ok b <-> exists a, r = Ok a /\ k a = Ok b.
Proof.
  cbv [mbind result_bind]. destruct r as [a|e]; split.
  - intros H. exists a. auto.
  - intros (a' & E & H). injection E as <-. exact H.
  - discriminate.
  - intros (a' & E & _). discriminate.
Qed.

Lemma validate_nested_length {C : Type} (validate : C -> result C) (l l' : list C) :
  validate_nested validate l = Ok l' -> length l' = length l.
Proof.
  revert l'. induction l as [|c l IH]; intros l' H; simpl in H.
  - injection H as <-. reflexivity.
  - apply result_bind_Ok in H. destruct H as (c' & _ & H).
    apply result_bind_Ok in H. destruct H as (r & Hr & H).
    injection H as <-. simpl. f_equal. apply IH, Hr.
Qed.

(** What a successful validation of a blended config went through. *)
Lemma validate_BlendedDatasetConfig_Ok
  (name : string) (datasets : list SampledDatasetConfig) (weights : list Q)
  (legacy : bool) (c' : SampledDatasetConfig) :
  validate (BlendedDatasetConfig name datasets weights legacy) = Ok c' ->
  exists datasets' weights',
    c' = BlendedDatasetConfig name datasets' weights' legacy
    /\ normalize_probabilities weights = Ok weights'
    /\ validate_nested validate datasets = Ok datasets'
    /\ (2 <= length datasets')%nat
    /\ length datasets' = length weights'.
Proof.
  intros H. simpl in H.
  apply result_bind_Ok in H. destruct H as (weights' & Hw & H).
  apply result_bind_Ok in H. destruct H as (datasets' & Hd & H).
  apply result_bind_Ok in H. destruct H as ([] & Hgeq & H).
  apply result_bind_Ok in H. destruct H as ([] & Heq & H).
  injection H as <-.
  exists datasets', weights'.
  apply assert_Ok in Hgeq. apply assert_Ok in Heq.
  change ((2 <=? length datasets')%nat = true) in Hgeq.
  change ((length datasets' =? length weights')%nat = true) in Heq.
  apply Nat.leb_le in Hgeq. apply Nat.eqb_eq in Heq.
  auto.
Qed.

(** C4.  Constructing a [BlendedDatasetConfig] fails, in [_validate], unless
    [len(datasets) == len(weights) >= 2], every weight is non-negative and
    the sum of the weights is positive. *)
Theorem BlendedDatasetConfig_validate_fails
  (name : string) (datasets : list SampledDatasetConfig) (weights : list Q)
  (legacy : bool) :
  ~ (length datasets = length weights
     /\ (2 <= length datasets)%nat
     /\ Forall (fun w => 0 <= w)%Q weights
     /\ (0 < np_sum weights)%Q) ->
  exists e, validate (BlendedDatasetConfig name datasets weights legacy) = Err e.
Proof.
  intros Hbad.
  destruct (validate (BlendedDatasetConfig name datasets weights legacy))
    as [c'|e] eqn:E; [|eauto].
  exfalso. apply Hbad.
  apply validate_BlendedDatasetConfig_Ok in E.
  destruct E as (datasets' & weights' & _ & Hw & Hd & Hgeq & Heq).
  apply validate_nested_length in Hd.
  apply normalize_probabilities_Ok in Hw. destruct Hw as (Hnn & Hpos & ->).
  rewrite length_map in Heq.
  repeat split; try assumption; congruence.
Qed.

Lemma BlendedDatasetConfig_validate_fails_witness :
  ~ (length [example_leaf] = length [3 # 10; 3 # 10]%Q
     /\ (2 <= length [example_leaf])%nat
     /\ Forall (fun w => 0 <= w)%Q [3 # 10; 3 # 10]%Q
     /\ (0 < np_sum [3 # 10; 3 # 10])%Q)
  /\ exists e,
       validate (BlendedDatasetConfig "blended" [example_leaf] [3 # 10; 3 # 10]%Q false)
       = Err e.
Proof.
  assert (H : ~ (length [example_leaf] = length [3 # 10; 3 # 10]%Q
                 /\ (2 <= length [example_leaf])%nat
                 /\ Forall (fun w => 0 <= w)%Q [3 # 10; 3 # 10]%Q
                 /\ (0 < np_sum [3 # 10; 3 # 10])%Q)).
  { intros [E _]. discriminate E. }
  split; [exact H|].
  exact (BlendedDatasetConfig_validate_fails "blended" [example_leaf]
           [3 # 10; 3 # 10]%Q false H).
Defined.

(** ** Slices *)

(** C1, in the form that holds of the code.  Constructing a [DatasetSliceConfig] checks nothing
    about [begin] and [end]: whatever the two numbers, validation succeeds
    and keeps them as given. *)
Theorem DatasetSliceConfig_validate_any_range
  (dataset : IndexedDatasetConfig) (begin end_ : Q) :
  validate (Samplable (DatasetSliceConfig dataset begin end_))
  = Ok (Samplable (DatasetSliceConfig dataset begin end_)).
Proof.
  unfold validate, SamplableDatasetConfig_validate.
  (* The three fields are validated in turn; none declares a check. *)
  unfold Field_validate, DatasetSliceConfig_dataset,
    DatasetSliceConfig_begin, DatasetSliceConfig_end.
  simpl. reflexivity.
Qed.

(** C1, as stated, does not hold: the config with [begin = 0.6] and
    [end = 0.4] is constructed without an error. *)
Lemma DatasetSliceConfig_reversed_range_validated :
  ~ (0 <= 6 # 10 /\ 6 # 10 < 4 # 10 /\ 4 # 10 <= 1)%Q
  /\ validate (Samplable (DatasetSliceConfig example_indexed (6 # 10) (4 # 10)))
     = Ok (Samplable (DatasetSliceConfig example_indexed (6 # 10) (4 # 10))).
Proof.
  split; [|reflexivity].
  intros (_ & H & _). discriminate H.
Qed.

(** [round] implements the policy. *)
Lemma round_rounds_half_to_even (x : Q) : rounds_half_to_even x (round x).
Proof.
  unfold rounds_half_to_even, round.
  pose proof (Qfloor_le x) as Hlo.
  pose proof (Qlt_floor x) as Hhi.
  rewrite inject_Z_plus in Hhi. change (inject_Z 1) with 1%Q in Hhi.
  set (f := Qfloor x) in *.
  destruct (x - inject_Z f ?= 1 # 2)%Q eqn:E.
  - apply Qeq_alt in E.
    destruct (Z.even f) eqn:Ev.
    + assert (Ha : (Qabs (x - inject_Z f) == x - inject_Z f)%Q)
        by (apply Qabs_pos; Lqa.lra).
      split; [rewrite Ha; Lqa.lra | auto].
    + rewrite inject_Z_plus. change (inject_Z 1) with 1%Q.
      assert (Ha : (Qabs (x - (inject_Z f + 1)) == - (x - (inject_Z f + 1)))%Q)
        by (apply Qabs_neg; Lqa.lra).
      split; [rewrite Ha; Lqa.lra|].
      intros _. change (f + 1) with (Z.succ f).
      rewrite Z.even_succ, <- Z.negb_even, Ev. reflexivity.
  - apply Qlt_alt in E.
    assert (Ha : (Qabs (x - inject_Z f) == x - inject_Z f)%Q)
      by (apply Qabs_pos; Lqa.lra).
    split; [rewrite Ha; Lqa.lra|].
    rewrite Ha. intros Htie. exfalso. Lqa.lra.
  - apply Qgt_alt in E.
    rewrite inject_Z_plus. change (inject_Z 1) with 1%Q.
    assert (Ha : (Qabs (x - (inject_Z f + 1)) == - (x - (inject_Z f + 1)))%Q)
      by (apply Qabs_neg; Lqa.lra).
    split; [rewrite Ha; Lqa.lra|].
    rewrite Ha. intros Htie. exfalso. Lqa.lra.
Qed.

(** * Properties of the rest of the code *)

(** ** Integer helpers *)

(** X1.  [div(x, y)] returns [q] exactly when [y] is not zero and
    [q * y = x]: it never returns a rounded quotient.  It raises
    [ZeroDivisionError] exactly when [y = 0], and [ValueError] exactly when
    [y] is not zero and does not divide [x]. *)
Theorem div_exact (x y : Z) :
  (forall q, div x y = Ok q <-> y <> 0 /\ x = q * y)
  /\ (div x y = Err ZeroDivisionError <-> y = 0)
  /\ (div x y = Err ValueError <-> y <> 0 /\ ~ (y | x)).
Proof.
  unfold div, int_mod, int_floordiv. cbv [mbind result_bind].
  destruct (Z.eqb_spec y 0) as [->|Hy].
  - split; [|split].
    + intros q. split; [discriminate | intros [H _]; congruence].
    + split; reflexivity.
    + split; [discriminate | intros [H _]; congruence].
  - destruct (Z.eqb_spec (x mod y) 0) as [Hm|Hm]; simpl.
    + apply Z.mod_divide in Hm; [|exact Hy].
      split; [|split].
      * intros q. split.
        -- intros H. injection H as <-. split; [exact Hy|].
           destruct Hm as [k ->]. rewrite Z.div_mul by exact Hy. reflexivity.
        -- intros [_ ->]. rewrite Z.div_mul by exact Hy. reflexivity.
      * split; [discriminate | intros ->; congruence].
      * split; [discriminate | intros [_ H]; contradiction].
    + assert (Hnd : ~ (y | x)) by (rewrite <- Z.mod_divide by exact Hy; exact Hm).
      split; [|split].
      * intros q. split; [discriminate|].
        intros [_ ->]. exfalso. apply Hnd. exists q. reflexivity.
      * split; [discriminate | intros ->; congruence].
      * split; [auto | reflexivity].
Qed.

Lemma div_exact_witness :
  div 12 4 = Ok 3 /\ div 12 0 = Err ZeroDivisionError /\ div 12 5 = Err ValueError.
Proof.
  destruct (div_exact 12 4) as (H1 & _).
  destruct (div_exact 12 0) as (_ & H2 & _).
  destruct (div_exact 12 5) as (_ & _ & H3).
  split; [apply H1; split; [lia | reflexivity]|].
  split; [apply H2; reflexivity|].
  apply H3. split; [lia|]. intros [k Hk]. lia.
Defined.

(** X2.  [clamp] returns its argument when it lies between the bounds, and
    a value between the bounds whenever [x_min <= x_max]; the upper bound
    wins when the bounds are crossed: the result is then [x_max], whatever
    [x]. *)
Theorem clamp_range (x x_min x_max : Z) :
  (x_min <= x_max -> x_min <= clamp x x_min x_max <= x_max)
  /\ (x_min <= x <= x_max -> clamp x x_min x_max = x)
  /\ (x_max < x_min -> clamp x x_min x_max = x_max)
  /\ clamp (clamp x x_min x_max) x_min x_max = clamp x x_min x_max.
Proof. unfold clamp. repeat split; lia. Qed.

Lemma clamp_range_witness :
  0 <= clamp 7 0 5 <= 5 /\ clamp 3 0 5 = 3 /\ clamp 3 9 5 = 5.
Proof.
  destruct (clamp_range 7 0 5) as (H1 & _).
  destruct (clamp_range 3 0 5) as (_ & H2 & _).
  destruct (clamp_range 3 9 5) as (_ & _ & H3 & _).
  split; [apply H1; lia|]. split; [apply H2; lia | apply H3; lia].
Defined.

(** ** [get_unique] *)

Lemma list_to_set_constant `{Countable A} (values : list A) (v : A) :
  values <> [] -> Forall (fun x => x = v) values ->
  (list_to_set values : gset A) = {[ v ]}.
Proof.
  intros Hne Hall. apply set_eq. intros x.
  rewrite elem_of_list_to_set, elem_of_singleton. split.
  - intros Hx. rewrite Forall_forall in Hall. apply Hall, Hx.
  - intros ->. destruct values as [|w values]; [congruence|].
    inversion Hall; subst. left.
Qed.

(** X4.  [get_unique(values)] returns [v] exactly when [values] is not
    empty and all its elements are [v]; in every other case, an empty
    [values] included, it fails with an [AssertionError]. *)
Theorem get_unique_spec `{Countable A} (values : list A) :
  (forall v, get_unique values = Return v <->
             values <> [] /\ Forall (fun x => x = v) values)
  /\ ((forall v, ~ (values <> [] /\ Forall (fun x => x = v) values)) ->
      get_unique values = Raise (Exception AssertionError)).
Proof.
  unfold get_unique, Assert.custom, Assert.assert, set_pop.
  destruct (size (list_to_set values : gset A) =? 1)%nat eqn:Hsize; simpl.
  - apply Nat.eqb_eq in Hsize.
    destruct (size_1_elem_of _ Hsize) as [x Hx]. apply leibniz_equiv in Hx.
    assert (Hvalues : values <> [] /\ Forall (fun y => y = x) values).
    { split.
      - intros ->. simpl in Hx. symmetry in Hx. revert Hx. apply non_empty_singleton_L.
      - apply Forall_forall. intros y Hy.
        apply (elem_of_list_to_set (C:=gset A)) in Hy. rewrite Hx in Hy.
        apply elem_of_singleton in Hy. exact Hy. }
    cbv [mbind outcome_bind]. rewrite Hx, elements_singleton.
    split.
    + intros v. split.
      * intros E. injection E as <-. exact Hvalues.
      * intros [Hne Hall]. f_equal.
        destruct values as [|w values]; [congruence|].
        destruct Hvalues as [_ Hallx].
        inversion Hall; subst. inversion Hallx; subst. reflexivity.
    + intros Hno. exfalso. exact (Hno x Hvalues).
  - cbv [mbind outcome_bind]. split; [|reflexivity].
    intros v. split; [discriminate|].
    intros [Hne Hall]. exfalso.
    rewrite (list_to_set_constant values v Hne Hall), size_singleton in Hsize.
    discriminate.
Qed.

Lemma get_unique_spec_witness :
  get_unique [3; 3; 3] = Return 3
  /\ get_unique (@nil Z) = Raise (Exception AssertionError)
  /\ get_unique [3; 4] = Raise (Exception AssertionError).
Proof.
  split; [|split].
  - apply (proj1 (get_unique_spec [3; 3; 3])). split; [discriminate|].
    repeat constructor.
  - apply (proj2 (get_unique_spec (@nil Z))). intros v [H _]. congruence.
  - apply (proj2 (get_unique_spec [3; 4])). intros v [_ H].
    inversion H as [|? ? E1 H']; subst. inversion H' as [|? ? E2 _]; subst.
    discriminate.
Defined.

(** ** [header] *)

Lemma string_length_append (s1 s2 : string) :
  String.length (String.append s1 s2) = (String.length s1 + String.length s2)%nat.
Proof. induction s1 as [|c s1 IH]; simpl; [|rewrite IH]; reflexivity. Qed.






(** ** [Registry] *)

Section Registry_properties.
Context {K V : Type} `{EqDecision K}.
Implicit Types (self : Registry.t K V) (key : K) (value : V).

Lemma Registry_contains_spec self key :
  Registry.contains self key = true <-> key ∈ Registry.keys self.
Proof. unfold Registry.contains, Registry.keys. apply bool_decide_eq_true. Qed.

Lemma dict_getitem_app_new (data : list (K * V)) key value :
  key ∉ data.*1 -> Registry.dict_getitem (data ++ [(key, value)]) key = Some value.
Proof.
  induction data as [|[k v] data IH]; simpl; intros Hk.
  - destruct (decide (key = key)); congruence.
  - apply not_elem_of_cons in Hk. destruct Hk as [Hne Hk].
    destruct (decide (k = key)); [congruence|]. apply IH, Hk.
Qed.

Lemma dict_getitem_app_old (data : list (K * V)) key key' value :
  key' <> key ->
  Registry.dict_getitem (data ++ [(key, value)]) key' = Registry.dict_getitem data key'.
Proof.
  intros Hne. induction data as [|[k v] data IH]; simpl.
  - destruct (decide (key = key')); congruence.
  - destruct (decide (k = key')); [reflexivity | exact IH].
Qed.

Lemma dict_getitem_filter (data : list (K * V)) key key' :
  key' <> key ->
  Registry.dict_getitem (filter (fun kv => kv.1 <> key) data) key'
  = Registry.dict_getitem data key'.
Proof.
  intros Hne. induction data as [|[k v] data IH]; [reflexivity|].
  rewrite filter_cons. simpl. destruct (decide (k <> key)) as [Hk|Hk]; simpl.
  - destruct (decide (k = key')); [reflexivity | exact IH].
  - destruct (decide (k = key')) as [->|_]; [|exact IH].
    exfalso. apply Hk. exact Hne.
Qed.

Lemma dict_getitem_is_Some (data : list (K * V)) key :
  key ∈ data.*1 -> exists v, Registry.dict_getitem data key = Some v.
Proof.
  induction data as [|[k v] data IH]; simpl; intros Hk.
  - apply elem_of_nil in Hk. contradiction.
  - destruct (decide (k = key)); [eauto|].
    apply elem_of_cons in Hk. destruct Hk as [->|Hk]; [congruence | auto].
Qed.

(** X7.  A registry is write-once.  [registry[key] = value] fails with a
    [KeyError] exactly when the key is registered, leaving the value it has;
    on a new key it appends the entry: the key then reads back as [value],
    it comes last in [keys()], the length grows by one, and every other key
    reads as before.  A key that is not registered reads as a [KeyError]. *)
Theorem Registry_setitem_getitem self key value :
  (Registry.setitem self key value = Raise KeyError <-> key ∈ Registry.keys self)
  /\ (key ∉ Registry.keys self ->
      Registry.getitem self key = Raise KeyError
      /\ exists self',
          Registry.setitem self key value = Return self'
          /\ Registry.getitem self' key = Return value
          /\ Registry.keys self' = Registry.keys self ++ [key]
          /\ Registry.len self' = S (Registry.len self)
          /\ (forall key', key' <> key ->
                Registry.getitem self' key' = Registry.getitem self key')
          /\ (NoDup (Registry.keys self) -> NoDup (Registry.keys self'))).
Proof.
  unfold Registry.setitem, Registry.getitem.
  destruct (Registry.contains self key) eqn:Hc.
  - apply Registry_contains_spec in Hc. split; [tauto | contradiction].
  - assert (Hk : key ∉ Registry.keys self).
    { intros Hin. apply Registry_contains_spec in Hin. congruence. }
    split; [split; [discriminate | contradiction]|].
    intros _. split; [reflexivity|].
    eexists. split; [reflexivity|].
    unfold Registry.contains, Registry.keys, Registry.len in *. simpl.
    rewrite fmap_app. simpl.
    split.
    { rewrite bool_decide_eq_true_2 by (apply elem_of_app; right; left).
      simpl. rewrite dict_getitem_app_new by exact Hk. reflexivity. }
    split; [reflexivity|].
    split; [rewrite length_app; simpl; lia|].
    split.
    { intros key' Hne.
      rewrite dict_getitem_app_old by exact Hne.
      destruct (bool_decide (key' ∈ (Registry._data self).*1)) eqn:E.
      - apply bool_decide_eq_true in E.
        rewrite bool_decide_eq_true_2 by (apply elem_of_app; left; exact E).
        reflexivity.
      - apply bool_decide_eq_false in E.
        rewrite bool_decide_eq_false_2; [reflexivity|].
        rewrite elem_of_app, list_elem_of_singleton. tauto. }
    intros Hnd. apply NoDup_app. split; [exact Hnd|].
    split; [|apply NoDup_singleton].
    intros x Hx Hx'. apply list_elem_of_singleton in Hx'. subst x. contradiction.
Qed.

(** X8.  [del registry[key]] fails with a [KeyError] exactly when the key is
    not registered.  On a registered key it removes the entry: the key is no
    longer contained, the length drops by one, and every other key reads as
    before.  Registering a new key and deleting it again gives the registry
    back. *)
Theorem Registry_delitem self key :
  (Registry.delitem self key = Raise KeyError <-> key ∉ Registry.keys self)
  /\ (NoDup (Registry.keys self) -> key ∈ Registry.keys self ->
      exists self',
        Registry.delitem self key = Return self'
        /\ Registry.contains self' key = false
        /\ S (Registry.len self') = Registry.len self
        /\ NoDup (Registry.keys self')
        /\ (forall key', key' <> key ->
              Registry.getitem self' key' = Registry.getitem self key'))
  /\ (forall value self',
        Registry.setitem self key value = Return self' ->
        Registry.delitem self' key = Return self).
Proof.
  split; [|split].
  - unfold Registry.delitem. destruct (Registry.contains self key) eqn:Hc; simpl.
    + apply Registry_contains_spec in Hc. split; [discriminate | contradiction].
    + split; [|reflexivity]. intros _ Hin.
      apply Registry_contains_spec in Hin. congruence.
  - intros Hnd Hin. unfold Registry.delitem.
    rewrite (proj2 (Registry_contains_spec self key) Hin). simpl.
    eexists. split; [reflexivity|].
    unfold Registry.contains, Registry.keys, Registry.len, Registry.getitem in *.
    simpl. destruct self as [name data]. simpl in *.
    assert (Hkeys : forall k, k ∈ (filter (fun kv : K * V => kv.1 <> key) data).*1
                              <-> k ∈ data.*1 /\ k <> key).
    { intros k. rewrite !list_elem_of_fmap. split.
      - intros ([k' v] & -> & Hf). apply list_elem_of_filter in Hf.
        destruct Hf as [Hne Hf]. split; [exists (k', v); auto | exact Hne].
      - intros [([k' v] & -> & Hf) Hne]. exists (k', v). split; [reflexivity|].
        apply list_elem_of_filter. auto. }
    split.
    { apply bool_decide_eq_false. rewrite Hkeys. tauto. }
    split.
    { clear Hkeys. induction data as [|[k v] data IH]; simpl in *.
      - apply elem_of_nil in Hin. contradiction.
      - apply NoDup_cons in Hnd. destruct Hnd as [Hk Hnd].
        rewrite filter_cons. simpl. destruct (decide (k <> key)) as [Hne|Heq].
        + simpl. f_equal. apply IH; [exact Hnd|].
          apply elem_of_cons in Hin. destruct Hin as [->|Hin]; [congruence | exact Hin].
        + assert (k = key) as -> by (destruct (decide (k = key)); tauto).
          f_equal. clear IH Hin Hnd.
          induction data as [|[k' v'] data IH]; [reflexivity|].
          simpl in Hk. apply not_elem_of_cons in Hk. destruct Hk as [Hne' Hk].
          rewrite filter_cons. simpl.
          destruct (decide (k' <> key)) as [_|Hn]; [|exfalso; apply Hn; congruence].
          simpl. f_equal. apply IH, Hk. }
    split.
    { clear Hkeys Hin. induction data as [|[k v] data IH]; simpl in *; [constructor|].
      apply NoDup_cons in Hnd. destruct Hnd as [Hk Hnd].
      rewrite filter_cons. simpl. destruct (decide (k <> key)); [|auto].
      simpl. apply NoDup_cons. split; [|auto].
      rewrite list_elem_of_fmap. intros ([k' v'] & -> & Hf).
      apply list_elem_of_filter in Hf. destruct Hf as [_ Hf].
      apply Hk. apply list_elem_of_fmap. exists (k', v'). auto. }
    intros key' Hne. rewrite dict_getitem_filter by exact Hne.
    unfold Registry.contains. simpl.
    destruct (bool_decide (key' ∈ data.*1)) eqn:E.
    + apply bool_decide_eq_true in E.
      rewrite bool_decide_eq_true_2 by (apply Hkeys; auto). reflexivity.
    + apply bool_decide_eq_false in E.
      rewrite bool_decide_eq_false_2; [reflexivity|]. rewrite Hkeys. tauto.
  - intros value self' Hset. unfold Registry.setitem in Hset.
    destruct (Registry.contains self key) eqn:Hc; [discriminate|].
    injection Hset as <-.
    assert (Hk : key ∉ (Registry._data self).*1).
    { intros Hin. apply Registry_contains_spec in Hin. congruence. }
    unfold Registry.delitem, Registry.contains. simpl.
    rewrite fmap_app. simpl.
    rewrite bool_decide_eq_true_2 by (apply elem_of_app; right; left). simpl.
    destruct self as [name data]. simpl in *. do 2 f_equal.
    rewrite filter_app, filter_cons. simpl.
    destruct (decide (key <> key)); [congruence|].
    rewrite filter_nil, app_nil_r. clear Hc.
    induction data as [|[k v] data IH]; [reflexivity|].
    simpl in Hk. apply not_elem_of_cons in Hk. destruct Hk as [Hne Hk].
    rewrite filter_cons. simpl.
    destruct (decide (k <> key)) as [_|Hn]; [|exfalso; apply Hn; congruence].
    f_equal. apply IH, Hk.
Qed.

End Registry_properties.

Lemma Registry_setitem_getitem_witness :
  Registry.getitem example_registry "ssm"%string = Raise KeyError
  /\ exists r',
      Registry.setitem example_registry "ssm"%string 3 = Return r'
      /\ Registry.getitem r' "ssm"%string = Return 3
      /\ Registry.keys r' = ["gpt"; "llama"; "ssm"]%string.
Proof.
  destruct (proj2 (Registry_setitem_getitem example_registry "ssm"%string 3))
    as (Hget & r' & Hset & Hread & Hkeys & _).
  { simpl. intros Hin. apply list_elem_of_In in Hin. simpl in Hin.
    destruct Hin as [H|[H|[]]]; discriminate H. }
  split; [exact Hget|]. exists r'. auto.
Defined.

Lemma Registry_delitem_witness :
  exists r',
    Registry.delitem example_registry "gpt"%string = Return r'
    /\ Registry.contains r' "gpt"%string = false
    /\ S (Registry.len r') = Registry.len example_registry.
Proof.
  destruct (proj1 (proj2 (Registry_delitem example_registry "gpt"%string)))
    as (r' & Hdel & Hc & Hlen & _).
  - simpl. apply NoDup_cons. split.
    + intros Hin. apply list_elem_of_In in Hin. simpl in Hin.
      destruct Hin as [H|[]]; discriminate H.
    + apply NoDup_singleton.
  - simpl. left.
  - exists r'. auto.
Defined.

(** * Resolution of the dataset configurations *)

(** X11.  A blended configuration whose lists of datasets and weights differ
    in length never resolves: [build_and_sample] raises, whatever the
    context. *)
Theorem blended_length_mismatch_fails
  (name : string) (datasets : list SampledDatasetConfig) (weights : list Q)
  (legacy : bool) (sampling : ref) (h : heap) :
  length datasets <> length weights ->
  exists e,
    build_and_sample (BlendedDatasetConfig name datasets weights legacy) sampling h
    = Err e.
Proof.
  intros Hlen.
  destruct (build_and_sample (BlendedDatasetConfig name datasets weights legacy) sampling h)
    as [[out h']|e] eqn:E; [|eauto].
  exfalso. simpl in E.
  apply M_bind_Ok in E. destruct E as (xs & h1 & Hb & _).
  apply blended_branches_length in Hb. destruct Hb as [Hl _]. contradiction.
Qed.

Lemma blended_length_mismatch_fails_witness :
  exists e,
    build_and_sample
      (BlendedDatasetConfig "blended" [example_leaf; example_leaf] [1 # 1]%Q false)
      0%nat (example_heap 4 100)
    = Err e.
Proof.
  apply blended_length_mismatch_fails. simpl. lia.
Defined.

(** ** [compare_nested] *)

Lemma py_value_nested_ind (P : py_value -> Prop) :
  P PyNone -> (forall b, P (PyBool b)) -> (forall z, P (PyInt z)) ->
  (forall s, P (PyStr s)) ->
  (forall l, Forall P l -> P (PyList l)) ->
  (forall l, Forall P l -> P (PyTuple l)) ->
  (forall d, Forall (fun item => P item.2) d -> P (PyDict d)) ->
  forall x, P x.
Proof.
  intros HN HB HI HS HL HT HD.
  fix IH 1. intros [|b|z|s|l|l|d].
  - exact HN.
  - apply HB.
  - apply HI.
  - apply HS.
  - apply HL. induction l as [|v l IHl]; constructor; [apply IH | exact IHl].
  - apply HT. induction l as [|v l IHl]; constructor; [apply IH | exact IHl].
  - apply HD. induction d as [|[k v] d IHd]; constructor; [apply IH | exact IHd].
Qed.

Ltac simpl_outcome :=
  cbv [mret mbind outcome_ret outcome_bind] in *.

Lemma compare_nested_keys_app (b : list (string * py_value)) (prefix : list string)
  (items : list (string * py_value)) :
  Forall (fun item => compare_nested_accumulates item.2) items ->
  forall errors,
    compare_nested_keys compare_nested b prefix items errors
    = new ← compare_nested_keys compare_nested b prefix items []; Return (errors ++ new).
Proof.
  induction 1 as [|[key value_a] items Hv _ IH]; intros errors.
  - simpl. simpl_outcome. now rewrite app_nil_r.
  - simpl in *. destruct (dict_lookup b key) as [value_b|].
    + rewrite (Hv value_b errors). simpl_outcome.
      destruct (compare_nested value_a value_b [] (prefix ++ [key])) as [new|e]; [|reflexivity].
      rewrite (IH (errors ++ new)), (IH new). simpl_outcome.
      destruct (compare_nested_keys compare_nested b prefix items []) as [new'|e];
        [|reflexivity].
      now rewrite app_assoc.
    + simpl_outcome.
      rewrite (IH (errors ++ _)), (IH [_]). simpl_outcome.
      destruct (compare_nested_keys compare_nested b prefix items []) as [new'|e];
        [|reflexivity].
      now rewrite <- app_assoc.
Qed.

Lemma compare_nested_range_app (b : py_value) (prefix : list string)
  (rest : list py_value) :
  Forall compare_nested_accumulates rest ->
  forall i errors,
    compare_nested_range compare_nested b prefix i rest errors
    = new ← compare_nested_range compare_nested b prefix i rest []; Return (errors ++ new).
Proof.
  induction 1 as [|value_a rest Hv _ IH]; intros i errors.
  - simpl. simpl_outcome. now rewrite app_nil_r.
  - simpl. destruct (py_getitem b i) as [value_b|e]; [|reflexivity].
    simpl_outcome. rewrite (Hv value_b errors). simpl_outcome.
    destruct (compare_nested value_a value_b [] (prefix ++ [pretty.pretty i])) as [new|e];
      [|reflexivity].
    rewrite (IH (S i) (errors ++ new)), (IH (S i) new). simpl_outcome.
    destruct (compare_nested_range compare_nested b prefix (S i) rest []) as [new'|e];
      [|reflexivity].
    now rewrite app_assoc.
Qed.

Lemma compare_nested_app (a : py_value) : compare_nested_accumulates a.
Proof.
  induction a as [|x|z|s|l IH|l IH|d IH] using py_value_nested_ind;
    intros b errors prefix.
  1-4: unfold compare_nested; simpl_outcome;
    repeat match goal with |- context [if ?c then _ else _] => destruct c end;
    simpl; rewrite ?app_nil_r, <- ?app_assoc; reflexivity.
  1-2: simpl; destruct (py_len b) as [len_b|e]; [|reflexivity]; simpl_outcome;
    destruct (decide (_ <> type_of b)); destruct (decide (length l <> len_b));
    simpl; rewrite <- ?app_assoc; try reflexivity;
    [rewrite (compare_nested_range_app b prefix l IH 0 (errors ++ [_])),
       (compare_nested_range_app b prefix l IH 0 [_]); simpl_outcome;
     destruct (compare_nested_range compare_nested b prefix 0 l []) as [new|e];
     [now rewrite <- app_assoc|reflexivity]
    |apply (compare_nested_range_app b prefix l IH)].
  simpl. destruct b as [| | | | | |b]; try reflexivity.
  change (type_of (PyDict b)) with dict_type.
  destruct (decide (dict_type <> dict_type)) as [Hne|_]; [now contradict Hne|].
  rewrite (compare_nested_keys_app b prefix d IH errors).
  simpl_outcome.
  destruct (compare_nested_keys compare_nested b prefix d []) as [new|e]; [|reflexivity].
  simpl. now rewrite <- app_assoc.
Qed.

Lemma compare_nested_Return_inv (a b : py_value) (errors errors' : list nested_error)
  (prefix : list string) :
  compare_nested a b errors prefix = Return errors' ->
  exists new, compare_nested a b [] prefix = Return new /\ errors' = errors ++ new.
Proof.
  rewrite (compare_nested_app a). simpl_outcome.
  destruct (compare_nested a b [] prefix) as [new|e]; intros [= <-]. eauto.
Qed.

Lemma compare_nested_range_Return_inv (b : py_value) (prefix : list string) (i : nat)
  (rest : list py_value) (errors errors' : list nested_error) :
  compare_nested_range compare_nested b prefix i rest errors = Return errors' ->
  exists new, compare_nested_range compare_nested b prefix i rest [] = Return new
              /\ errors' = errors ++ new.
Proof.
  rewrite compare_nested_range_app
    by (apply Forall_forall; intros; apply compare_nested_app).
  simpl_outcome.
  destruct (compare_nested_range compare_nested b prefix i rest []) as [new|e];
    intros [= <-]. eauto.
Qed.

Lemma compare_nested_keys_Return_inv (b : list (string * py_value)) (prefix : list string)
  (items : list (string * py_value)) (errors errors' : list nested_error) :
  compare_nested_keys compare_nested b prefix items errors = Return errors' ->
  exists new, compare_nested_keys compare_nested b prefix items [] = Return new
              /\ errors' = errors ++ new.
Proof.
  rewrite compare_nested_keys_app
    by (apply Forall_forall; intros; apply compare_nested_app).
  simpl_outcome.
  destruct (compare_nested_keys compare_nested b prefix items []) as [new|e];
    intros [= <-]. eauto.
Qed.

Lemma dict_lookup_Some (d : list (string * py_value)) (key : string) (v : py_value) :
  dict_lookup d key = Some v -> (key, v) ∈ d.
Proof.
  induction d as [|[k w] d IH]; simpl; [discriminate|].
  destruct (decide (k = key)) as [->|_].
  - intros [= ->]. apply elem_of_cons. now left.
  - intros H. apply elem_of_cons. right. now apply IH.
Qed.

Lemma dict_lookup_elem (d : list (string * py_value)) (key : string) :
  key ∈ d.*1 -> exists v, dict_lookup d key = Some v.
Proof.
  induction d as [|[k w] d IH]; simpl; intros Hin.
  - inversion Hin.
  - destruct (decide (k = key)) as [->|Hne]; [eauto|].
    apply elem_of_cons in Hin as [Heq|Hin]; [congruence|]. now apply IH.
Qed.

Lemma dict_lookup_NoDup (d : list (string * py_value)) (key : string) (v : py_value) :
  NoDup d.*1 -> (key, v) ∈ d -> dict_lookup d key = Some v.
Proof.
  induction d as [|[k w] d IH]; simpl; intros Hnd Hin.
  - inversion Hin.
  - apply NoDup_cons in Hnd as [Hk Hnd].
    apply elem_of_cons in Hin as [[= -> ->]|Hin].
    + destruct (decide (k = k)); congruence.
    + destruct (decide (k = key)) as [->|_]; [|now apply IH].
      exfalso. apply Hk. apply list_elem_of_fmap. now exists (key, v).
Qed.

Lemma filter_eq_nil {A : Type} (P : A -> Prop) `{forall x, Decision (P x)} (l : list A) :
  (forall x, x ∈ l -> ~ P x) -> filter P l = [].
Proof.
  induction l as [|x l IH]; intros Hl; [reflexivity|].
  rewrite filter_cons. destruct (decide (P x)) as [Hx|_].
  - exfalso. apply (Hl x); [apply elem_of_cons; now left | exact Hx].
  - apply IH. intros y Hy. apply Hl. apply elem_of_cons. now right.
Qed.

Lemma py_wf_PyList (l : list py_value) : py_wf (PyList l) <-> Forall py_wf l.
Proof.
  induction l as [|v l IH]; simpl.
  - split; auto.
  - rewrite Forall_cons. simpl in IH. now rewrite IH.
Qed.

Lemma py_wf_PyTuple (l : list py_value) : py_wf (PyTuple l) <-> Forall py_wf l.
Proof.
  induction l as [|v l IH]; simpl.
  - split; auto.
  - rewrite Forall_cons. simpl in IH. now rewrite IH.
Qed.

Lemma py_wf_PyDict (d : list (string * py_value)) :
  py_wf (PyDict d) <-> NoDup d.*1 /\ Forall (fun item => py_wf item.2) d.
Proof.
  simpl. apply and_iff_compat_l.
  induction d as [|[k v] d IH].
  - split; auto.
  - rewrite Forall_cons. simpl. now rewrite IH.
Qed.

Lemma compare_nested_range_sound (b : py_value) (prefix : list string)
  (rest : list py_value) :
  Forall compare_nested_sound_at rest ->
  forall i, compare_nested_range compare_nested b prefix i rest [] = Return [] ->
  forall j value_a, rest !! j = Some value_a ->
    exists value_b, py_getitem b (i + j) = Return value_b /\ py_same value_a value_b.
Proof.
  induction 1 as [|v rest Hv _ IH]; intros i Hrun j value_a Hj.
  - discriminate Hj.
  - simpl in Hrun. destruct (py_getitem b i) as [value_b|e] eqn:Hg; [|discriminate].
    simpl_outcome.
    destruct (compare_nested v value_b [] (prefix ++ [pretty.pretty i])) as [new|e] eqn:Hc;
      [|discriminate].
    destruct (compare_nested_range_Return_inv _ _ _ _ _ _ Hrun) as (new' & Hrun' & Heq).
    symmetry in Heq. apply app_eq_nil in Heq as [-> ->].
    destruct j as [|j]; simpl in Hj.
    + injection Hj as <-. exists value_b. rewrite Nat.add_0_r.
      split; [exact Hg | exact (Hv _ _ Hc)].
    + replace (i + S j)%nat with (S i + j)%nat by lia. exact (IH (S i) Hrun' j value_a Hj).
Qed.

Lemma compare_nested_keys_sound (b : list (string * py_value)) (prefix : list string)
  (items : list (string * py_value)) :
  Forall (fun item => compare_nested_sound_at item.2) items ->
  compare_nested_keys compare_nested b prefix items [] = Return [] ->
  forall key value_a, (key, value_a) ∈ items ->
    exists value_b, dict_lookup b key = Some value_b /\ py_same value_a value_b.
Proof.
  induction 1 as [|[k v] items Hv _ IH]; intros Hrun key value_a Hin.
  - inversion Hin.
  - simpl in Hrun. destruct (dict_lookup b k) as [value_b|] eqn:Hl.
    + simpl_outcome.
      destruct (compare_nested v value_b [] (prefix ++ [k])) as [new|e] eqn:Hc;
        [|discriminate].
      destruct (compare_nested_keys_Return_inv _ _ _ _ _ Hrun) as (new' & Hrun' & Heq).
      symmetry in Heq. apply app_eq_nil in Heq as [-> ->].
      apply elem_of_cons in Hin as [[= -> ->]|Hin].
      * exists value_b. split; [exact Hl | exact (Hv _ _ Hc)].
      * exact (IH Hrun' key value_a Hin).
    + simpl_outcome.
      destruct (compare_nested_keys_Return_inv _ _ _ _ _ Hrun) as (new' & _ & Heq).
      discriminate Heq.
Qed.

Lemma compare_nested_sound (a : py_value) : compare_nested_sound_at a.
Proof.
  induction a as [|x|z|s|l IH|l IH|d IH] using py_value_nested_ind;
    intros b prefix Hrun.
  1-4: destruct b as [|y|y|y|y|y|y]; simpl in Hrun;
    repeat match type of Hrun with
           | context [decide ?P] => destruct (decide P) as [?|Hty]
           end;
    try (exfalso; apply Hty; discriminate);
    try (repeat match type of Hrun with
                | context [if ?c then _ else _] => destruct c
                end; discriminate Hrun).
  - constructor.
  - destruct (Bool.eqb x y) eqn:E; [|discriminate Hrun].
    apply Bool.eqb_prop in E. subst. constructor.
  - destruct (z =? y) eqn:E; [|discriminate Hrun].
    apply Z.eqb_eq in E. subst. constructor.
  - destruct (String.eqb s y) eqn:E; [|discriminate Hrun].
    apply String.eqb_eq in E. subst. constructor.
  - simpl in Hrun. destruct (py_len b) as [len_b|e] eqn:Hlen; [|discriminate].
    simpl_outcome.
    destruct (decide (length l <> len_b)) as [|Hlen'].
    { injection Hrun as Hrun. apply app_eq_nil in Hrun as [_ [=]]. }
    destruct (compare_nested_range_Return_inv _ _ _ _ _ _ Hrun) as (new & Hrun' & Heq).
    destruct (decide (list_type <> type_of b)) as [|Hty]; [discriminate Heq|].
    simpl in Heq. subst new.
    destruct b as [| | | |lb| |]; try (exfalso; apply Hty; discriminate).
    injection Hlen as <-.
    constructor. apply Forall2_same_length_lookup_2.
    + destruct (decide (length l = length lb)); [assumption|contradiction].
    + intros i x y Hx Hy.
      destruct (compare_nested_range_sound _ _ _ IH 0%nat Hrun' i x Hx) as (vb & Hg & Hs).
      simpl in Hg. rewrite Hy in Hg. injection Hg as <-. exact Hs.
  - simpl in Hrun. destruct (py_len b) as [len_b|e] eqn:Hlen; [|discriminate].
    simpl_outcome.
    destruct (decide (length l <> len_b)) as [|Hlen'].
    { injection Hrun as Hrun. apply app_eq_nil in Hrun as [_ [=]]. }
    destruct (compare_nested_range_Return_inv _ _ _ _ _ _ Hrun) as (new & Hrun' & Heq).
    destruct (decide (tuple_type <> type_of b)) as [|Hty]; [discriminate Heq|].
    simpl in Heq. subst new.
    destruct b as [| | | | |lb|]; try (exfalso; apply Hty; discriminate).
    injection Hlen as <-.
    constructor. apply Forall2_same_length_lookup_2.
    + destruct (decide (length l = length lb)); [assumption|contradiction].
    + intros i x y Hx Hy.
      destruct (compare_nested_range_sound _ _ _ IH 0%nat Hrun' i x Hx) as (vb & Hg & Hs).
      simpl in Hg. rewrite Hy in Hg. injection Hg as <-. exact Hs.
  - simpl in Hrun. destruct b as [| | | | | |b]; try discriminate Hrun.
    simpl_outcome.
    destruct (compare_nested_keys compare_nested b prefix d _) as [errors|e] eqn:Hk;
      [|discriminate].
    injection Hrun as Hrun. apply app_eq_nil in Hrun as [-> Hmiss].
    apply fmap_nil_inv in Hmiss.
    destruct (compare_nested_keys_Return_inv _ _ _ _ _ Hk) as (new & Hk' & Heq).
    symmetry in Heq. apply app_eq_nil in Heq as [_ ->].
    pose proof (compare_nested_keys_sound _ _ _ IH Hk') as Hitems.
    constructor.
    + intros key. split; intros Hin.
      * apply list_elem_of_fmap in Hin as ([k v] & -> & Hin). simpl.
        destruct (Hitems k v Hin) as (vb & Hl & _).
        apply dict_lookup_Some in Hl. apply list_elem_of_fmap. now exists (k, vb).
      * destruct (decide (key ∈ d.*1)) as [|Hn]; [assumption|].
        exfalso. exact (filter_nil_not_elem_of _ _ key Hmiss Hn Hin).
    + intros key va vb Ha Hb. apply dict_lookup_Some in Ha.
      destruct (Hitems key va Ha) as (vb' & Hl & Hs). congruence.
Qed.

Lemma compare_nested_range_complete (b : py_value) (prefix : list string)
  (rest : list py_value) :
  Forall compare_nested_complete_at rest -> Forall py_wf rest ->
  forall i,
    (forall j value_a, rest !! j = Some value_a ->
       exists value_b, py_getitem b (i + j) = Return value_b /\ py_same value_a value_b) ->
    compare_nested_range compare_nested b prefix i rest [] = Return [].
Proof.
  induction 1 as [|v rest Hv _ IH]; intros Hwf i Hall; [reflexivity|].
  apply Forall_cons in Hwf as [Hwfv Hwf]. simpl.
  destruct (Hall 0%nat v eq_refl) as (value_b & Hg & Hs).
  rewrite Nat.add_0_r in Hg. rewrite Hg. simpl_outcome.
  rewrite (Hv Hwfv value_b _ Hs).
  apply (IH Hwf). intros j value_a Hj.
  replace (S i + j)%nat with (i + S j)%nat by lia. now apply Hall.
Qed.

Lemma compare_nested_keys_complete (b : list (string * py_value)) (prefix : list string)
  (items : list (string * py_value)) :
  Forall (fun item => compare_nested_complete_at item.2) items ->
  Forall (fun item => py_wf item.2) items ->
  (forall key value_a, (key, value_a) ∈ items ->
     exists value_b, dict_lookup b key = Some value_b /\ py_same value_a value_b) ->
  compare_nested_keys compare_nested b prefix items [] = Return [].
Proof.
  induction 1 as [|[k v] items Hv _ IH]; intros Hwf Hall; [reflexivity|].
  apply Forall_cons in Hwf as [Hwfv Hwf]. simpl in *.
  destruct (Hall k v) as (value_b & Hl & Hs); [apply elem_of_cons; now left|].
  rewrite Hl. simpl_outcome. rewrite (Hv Hwfv value_b _ Hs).
  apply (IH Hwf). intros key value_a Hin. apply Hall. apply elem_of_cons. now right.
Qed.

Lemma compare_nested_complete (a : py_value) : compare_nested_complete_at a.
Proof.
  induction a as [|x|z|s|l IH|l IH|d IH] using py_value_nested_ind;
    intros Hwf b prefix Hsame.
  1-4: inversion Hsame; subst; simpl;
    rewrite ?Bool.eqb_reflx, ?Z.eqb_refl, ?String.eqb_refl; reflexivity.
  - apply py_wf_PyList in Hwf. inversion Hsame as [| | | |? lb Hall| |]; subst.
    simpl. simpl_outcome.
    destruct (decide (length l <> length lb)) as [Hne|_].
    { exfalso. apply Hne. exact (Forall2_length _ _ _ Hall). }
    apply (compare_nested_range_complete _ _ _ IH Hwf). intros j value_a Hj.
    destruct (Forall2_lookup_l _ _ _ _ _ Hall Hj) as (value_b & Hb & Hs).
    exists value_b. simpl. rewrite Hb. now split.
  - apply py_wf_PyTuple in Hwf. inversion Hsame as [| | | | |? lb Hall|]; subst.
    simpl. simpl_outcome.
    destruct (decide (length l <> length lb)) as [Hne|_].
    { exfalso. apply Hne. exact (Forall2_length _ _ _ Hall). }
    apply (compare_nested_range_complete _ _ _ IH Hwf). intros j value_a Hj.
    destruct (Forall2_lookup_l _ _ _ _ _ Hall Hj) as (value_b & Hb & Hs).
    exists value_b. simpl. rewrite Hb. now split.
  - apply py_wf_PyDict in Hwf as [Hnd Hwf].
    inversion Hsame as [| | | | | |? db Hkeys Hvalues]; subst.
    simpl. simpl_outcome.
    rewrite (compare_nested_keys_complete db prefix d IH Hwf).
    + rewrite (filter_eq_nil (fun key => key ∉ d.*1) db.*1); [reflexivity|].
      intros key Hin Hn. apply Hn. now apply Hkeys.
    + intros key value_a Hin.
      destruct (dict_lookup_elem db key) as (value_b & Hb).
      { apply Hkeys. apply list_elem_of_fmap. now exists (key, value_a). }
      exists value_b. split; [exact Hb|].
      exact (Hvalues key value_a value_b (dict_lookup_NoDup _ _ _ Hnd Hin) Hb).
Qed.

Lemma example_nested_wf : py_wf example_nested.
Proof.
  simpl. split; [|repeat split].
  apply (bool_decide_unpack _). vm_compute. exact I.
Defined.

(** X16. [check_equal_nested] accepts exactly the values that are the same:
    for a value [config_a] without a repeated dictionary key it returns
    without raising if, and only if, [config_b] has the same scalars, the
    same elements in the same order in every list and tuple, and the same
    keys with the same values in every dictionary, in whatever order the
    dictionaries list their items. *)
Theorem check_equal_nested_same (config_a config_b : py_value) :
  py_wf config_a ->
  (check_equal_nested config_a config_b = Return tt <-> py_same config_a config_b).
Proof.
  intros Hwf. unfold check_equal_nested. split.
  - destruct (compare_nested config_a config_b [] []) as [[|error errors]|e] eqn:Hrun;
      simpl_outcome; try discriminate.
    intros _. exact (compare_nested_sound _ _ _ Hrun).
  - intros Hsame. now rewrite (compare_nested_complete _ Hwf _ _ Hsame).
Qed.

Lemma check_equal_nested_same_witness :
  check_equal_nested example_nested example_nested_reordered = Return tt
  /\ py_same example_nested example_nested_reordered.
Proof.
  pose proof (check_equal_nested_same example_nested example_nested_reordered
                example_nested_wf) as H.
  split; [vm_compute; reflexivity | apply H; vm_compute; reflexivity].
Defined.

(** X17. [compare_nested] only appends to the list of errors it is given:
    when it returns, the list returned starts with [errors], unchanged and
    in order, followed by exactly the errors the same call finds from an
    empty list; and whether it raises, and what, does not depend on
    [errors]. *)
Theorem compare_nested_appends (config_a config_b : py_value)
  (errors : list nested_error) (prefix : list string) :
  (forall errors', compare_nested config_a config_b errors prefix = Return errors' <->
     exists new, compare_nested config_a config_b [] prefix = Return new
                 /\ errors' = errors ++ new)
  /\ (forall e, compare_nested config_a config_b errors prefix = Raise e <->
        compare_nested config_a config_b [] prefix = Raise e).
Proof.
  rewrite (compare_nested_app config_a config_b errors prefix). simpl_outcome.
  destruct (compare_nested config_a config_b [] prefix) as [new|e']; split.
  - intros errors'. split.
    + intros [= <-]. eauto.
    + intros (new' & [= <-] & ->). reflexivity.
  - intros e. split; discriminate.
  - intros errors'. split; [discriminate|]. intros (new' & Hn & _). discriminate Hn.
  - intros e. tauto.
Qed.

Lemma compare_nested_appends_witness :
  compare_nested (PyList [PyInt 1; PyInt 2]) (PyList [PyInt 1; PyInt 3])
    [Key_missing_in_lhs ["a"]] []
  = Return [Key_missing_in_lhs ["a"]; Different_value ["1"] (PyInt 2) (PyInt 3)].
Proof.
  apply (compare_nested_appends (PyList [PyInt 1; PyInt 2]) (PyList [PyInt 1; PyInt 3])
           [Key_missing_in_lhs ["a"]] []).
  exists [Different_value ["1"] (PyInt 2) (PyInt 3)].
  split; vm_compute; reflexivity.
Defined.

(** ** [LanguageModelLossNames] *)

(** X18. The loss names of the prediction heads are pairwise distinct:
    [multi_token_prediction_loss] gives different names to different
    indices, the unsuffixed name of index 0 included. *)
Theorem multi_token_prediction_loss_distinct (index index' : Z) :
  index <> index' ->
  LanguageModelLossNames.multi_token_prediction_loss index
  <> LanguageModelLossNames.multi_token_prediction_loss index'.
Proof.
  intros Hne. unfold LanguageModelLossNames.multi_token_prediction_loss.
  destruct (index =? 0) eqn:E; destruct (index' =? 0) eqn:E'; intros H.
  - apply Z.eqb_eq in E, E'. congruence.
  - apply (f_equal String.length) in H. rewrite string_length_append in H.
    simpl in H. lia.
  - apply (f_equal String.length) in H. rewrite string_length_append in H.
    simpl in H. lia.
  - apply String.app_inj in H. apply pretty.pretty_Z_inj in H. contradiction.
Qed.

Lemma multi_token_prediction_loss_distinct_witness :
  LanguageModelLossNames.multi_token_prediction_loss 0
  <> LanguageModelLossNames.multi_token_prediction_loss 1.
Proof. apply (multi_token_prediction_loss_distinct 0 1). lia. Defined.

(** ** [LanguageModelBaseConfig._validate] *)

Lemma of_result_Return {A : Type} (r : result A) (a : A) :
  of_result r = Return a <-> r = Ok a.
Proof. destruct r; simpl; split; congruence. Qed.

Lemma outcome_bind_Return {A B : Type} (r : outcome A) (k : A -> outcome B) (b : B) :
  (r ≫= k) = Return b <-> exists a, r = Return a /\ k a = Return b.
Proof.
  cbv [mbind outcome_bind]. destruct r as [a|e]; split.
  - intros H. exists a. auto.
  - intros (a' & E & H). injection E as <-. exact H.
  - discriminate.
  - intros (a' & E & _). discriminate E.
Qed.

Lemma assert_coefficients_Ok (coefficients : list Q) :
  LanguageModelBaseConfig.assert_coefficients coefficients = Ok tt ->
  Forall (fun coeff => (0 <= coeff)%Q) coefficients.
Proof.
  induction coefficients as [|coeff rest IH]; simpl; intros H; constructor.
  - apply result_bind_Ok in H as ([] & H & _).
    apply assert_Ok in H. now apply Qle_bool_iff.
  - apply IH. now apply result_bind_Ok in H as ([] & _ & H).
Qed.

(** X19. What a validated language-model config guarantees.  Whenever
    [_validate] returns, whatever the validation of the transformer config
    does, the config it returns has a positive vocabulary size, number of
    position embeddings and number of prediction heads; its embedding
    initialization scale, language-model loss factor and position-embedding
    switch are set, the scale non-negative and the loss factor the one given
    or else 1 without a distillation model and 0 with one; the clamping
    bounds of the embedding are ordered when both are set; a distillation
    model comes with one prediction head only; there is one non-negative
    loss coefficient per prediction head when coefficients are given; and
    the per-layer learning-rate scales, when given, are one per transformer
    layer and one per prediction head. *)
Theorem LanguageModelBaseConfig_validated
  (transformer_validate : TransformerConfig.t -> outcome TransformerConfig.t)
  (self validated : LanguageModelBaseConfig.t) :
  LanguageModelBaseConfig._validate transformer_validate self = Return validated ->
  let heads := LanguageModelBaseConfig.prediction_heads validated in
  let layers :=
    TransformerConfig.num_layers (LanguageModelBaseConfig.transformer validated) in
  0 < LanguageModelBaseConfig.vocab_size validated
  /\ 0 < LanguageModelBaseConfig.max_position_embeddings validated
  /\ 0 < heads
  /\ (exists std, LanguageModelBaseConfig.init_method_std_embed validated = Some std
                  /\ (0 <= std)%Q)
  /\ LanguageModelBaseConfig.language_model_loss_factor validated
     = Some (default (match LanguageModelBaseConfig.distillation_model self with
                      | None => 1%Q
                      | Some _ => 0%Q
                      end)
               (LanguageModelBaseConfig.language_model_loss_factor self))
  /\ is_Some (LanguageModelBaseConfig.use_position_embeddings validated)
  /\ (forall lo hi,
        LanguageModelBaseConfig.init_method_min_embed validated = Some lo ->
        LanguageModelBaseConfig.init_method_max_embed validated = Some hi ->
        (lo <= hi)%Q)
  /\ (is_Some (LanguageModelBaseConfig.distillation_model validated) -> heads = 1)
  /\ (forall coefficients,
        LanguageModelBaseConfig.prediction_loss_coefficient validated = Some coefficients ->
        Z.of_nat (length coefficients) = heads
        /\ Forall (fun coeff => (0 <= coeff)%Q) coefficients)
  /\ (forall scales,
        TransformerConfig.per_layer_lr_scale (LanguageModelBaseConfig.transformer validated)
        = Some scales ->
        Z.of_nat (length scales) = layers + heads).
Proof.
  unfold LanguageModelBaseConfig._validate. intros H.
  apply outcome_bind_Return in H as (transformer & _ & H).
  set (self' := LanguageModelBaseConfig.set_implicit_default
                  (LanguageModelBaseConfig.with_transformer self transformer)) in *.
  apply outcome_bind_Return in H as ([] & Hfields & H).
  apply outcome_bind_Return in H as ([] & Hbounds & H).
  apply outcome_bind_Return in H as ([] & Hdistil & H).
  apply outcome_bind_Return in H as ([] & Hcoeff & H).
  apply outcome_bind_Return in H as ([] & Hscales & H).
  injection H as <-.
  apply of_result_Return in Hfields. unfold LanguageModelBaseConfig.validate_fields in Hfields.
  apply result_bind_Ok in Hfields as ([] & Hmax & Hfields).
  apply result_bind_Ok in Hfields as ([] & Hvocab & Hfields).
  apply result_bind_Ok in Hfields as ([] & Hheads & Hfields).
  apply result_bind_Ok in Hfields as ([] & Hstd & _).
  apply assert_Ok, Z.ltb_lt in Hmax, Hvocab, Hheads.
  cbv zeta. repeat split.
  - exact Hvocab.
  - exact Hmax.
  - exact Hheads.
  - cbv [Field_validate LanguageModelBaseConfig.init_method_std_embed_field valid
           check_field] in Hstd.
    destruct (LanguageModelBaseConfig.init_method_std_embed self') as [std|];
      [|discriminate Hstd].
    exists std. split; [reflexivity|]. apply assert_Ok in Hstd. now apply Qle_bool_iff.
  - simpl. destruct (LanguageModelBaseConfig.language_model_loss_factor self);
      [reflexivity|]. now destruct (LanguageModelBaseConfig.distillation_model self).
  - simpl. destruct (LanguageModelBaseConfig.use_position_embeddings self); eauto.
  - intros lo hi Hlo Hhi. rewrite Hlo, Hhi in Hbounds.
    apply of_result_Return, assert_Ok in Hbounds. now apply Qle_bool_iff.
  - intros [model Hmodel]. rewrite Hmodel in Hdistil.
    destruct (1 <? LanguageModelBaseConfig.prediction_heads self') eqn:E;
      [discriminate Hdistil|].
    apply Z.ltb_ge in E. lia.
  - rewrite H in Hcoeff. apply outcome_bind_Return in Hcoeff as ([] & Hlen & _).
    apply of_result_Return, assert_Ok, Z.eqb_eq in Hlen. exact Hlen.
  - rewrite H in Hcoeff. apply outcome_bind_Return in Hcoeff as ([] & _ & Hall).
    apply of_result_Return in Hall. now apply assert_coefficients_Ok.
  - intros scales Hs. simpl in Hs. rewrite Hs in Hscales.
    apply of_result_Return, assert_Ok, Z.eqb_eq in Hscales. simpl. simpl in Hscales. lia.
Qed.

Lemma LanguageModelBaseConfig_validated_witness :
  exists validated,
    LanguageModelBaseConfig._validate Return example_language_model = Return validated
    /\ LanguageModelBaseConfig.language_model_loss_factor validated = Some 1%Q
    /\ (forall scales,
          TransformerConfig.per_layer_lr_scale
            (LanguageModelBaseConfig.transformer validated) = Some scales ->
          Z.of_nat (length scales) = 4 + 2).
Proof.
  destruct (LanguageModelBaseConfig._validate Return example_language_model)
    as [validated|e] eqn:E; [|vm_compute in E; discriminate E].
  exists validated. split; [reflexivity|].
  pose proof (LanguageModelBaseConfig_validated Return example_language_model validated E)
    as (_ & _ & _ & _ & Hfactor & _ & _ & _ & _ & Hscales).
  split; [exact Hfactor|].
  intros scales Hs. rewrite (Hscales scales Hs).
  assert (validated = LanguageModelBaseConfig.set_implicit_default example_language_model)
    as -> by (vm_compute in E; injection E as <-; reflexivity).
  reflexivity.
Defined.

(** ** [DiscreteMamba2.forward]: the padded length *)

(** X20. The input of [DiscreteMamba2.forward] is padded to the least
    multiple of the chunk size that is not below the sequence length: for a
    positive [chunk_size], [padded_len] is a multiple of [chunk_size], the
    padding [padded_len - seqlen] is at least 0 and less than [chunk_size],
    and no smaller multiple of [chunk_size] reaches [seqlen]. *)
Theorem padded_len_least_multiple (seqlen chunk_size : Z) :
  0 < chunk_size ->
  exists p, padded_len seqlen chunk_size = Ok p
    /\ (chunk_size | p)
    /\ seqlen <= p < seqlen + chunk_size
    /\ forall m, (chunk_size | m) -> seqlen <= m -> p <= m.
Proof.
  intros Hc. unfold padded_len, int_floordiv.
  destruct (chunk_size =? 0) eqn:E; [apply Z.eqb_eq in E; lia|].
  simpl_result. eexists. split; [reflexivity|].
  pose proof (Z.div_mod (seqlen - 1) chunk_size ltac:(lia)) as Hdm.
  pose proof (Z.mod_pos_bound (seqlen - 1) chunk_size Hc) as Hr.
  set (q := (seqlen - 1) / chunk_size) in *.
  set (r := (seqlen - 1) mod chunk_size) in *.
  split; [exists (1 + q); reflexivity|].
  split; [nia|].
  intros m [k ->] Hm.
  assert (q < k) by nia. nia.
Qed.

Lemma padded_len_least_multiple_witness :
  exists p, padded_len 1000 256 = Ok p
    /\ (256 | p)
    /\ 1000 <= p < 1000 + 256
    /\ forall m, (256 | m) -> 1000 <= m -> p <= m.
Proof. apply (padded_len_least_multiple 1000 256). lia. Defined.

(** ** [Interrupter] *)

Section Interrupter_properties.
Context {F : Type}.











End Interrupter_properties.



(** * Properties of the code on machine numbers *)

(** ** Signs of rounded results *)








(** ** The pairwise sum *)

Lemma pairwise_sum_unfold (fuel : nat) (a : list Float64.t) :
  np.pairwise_sum fuel a
  = let n := length a in
    if (n <? 8)%nat then np.sum_loop (SpecFloat.S754_zero true) a
    else if (n <=? 128)%nat then
      let '(r, rest) := np.sum_strided (n / 8 - 1) (take 8 a) (drop 8 a) in
      match r with
      | [r0; r1; r2; r3; r4; r5; r6; r7] =>
          np.sum_loop
            (Float64.add (Float64.add (Float64.add r0 r1) (Float64.add r2 r3))
                         (Float64.add (Float64.add r4 r5) (Float64.add r6 r7)))
            rest
      | _ => Float64.zero
      end
    else
      match fuel with
      | O => Float64.zero
      | S fuel' =>
          let n2 := (n / 2 - (n / 2) mod 8)%nat in
          Float64.add (np.pairwise_sum fuel' (take n2 a))
                      (np.pairwise_sum fuel' (drop n2 a))
      end.
Proof. destruct fuel; reflexivity. Qed.

Lemma pairwise_split_sizes (n : nat) :
  (128 < n)%nat ->
  (n / 2 - (n / 2) mod 8 < n)%nat /\ (n - (n / 2 - (n / 2) mod 8) < n)%nat.
Proof.
  intros Hn.
  pose proof (Nat.div_mod_eq n 2) as Hdiv.
  pose proof (Nat.mod_upper_bound n 2 ltac:(discriminate)) as Hmod.
  pose proof (Nat.mod_upper_bound (n / 2) 8 ltac:(discriminate)) as Hmod8.
  pose proof (Nat.Div0.mod_le (n / 2) 8) as Hle.
  revert Hdiv Hmod Hmod8 Hle.
  generalize (n mod 2)%nat, ((n / 2) mod 8)%nat, (n / 2)%nat.
  intros r r8 q Hdiv Hmod Hmod8 Hle. lia.
Qed.

(** The recursion of the pairwise sum never runs out of steps: any number of
    them that is at least the length of the array gives the same sum. *)
Lemma pairwise_sum_fuel (fuel : nat) :
  forall (fuel' : nat) (a : list Float64.t),
    (length a <= fuel)%nat -> (length a <= fuel')%nat ->
    np.pairwise_sum fuel a = np.pairwise_sum fuel' a.
Proof.
  induction fuel as [|fuel IH]; intros fuel' a H H';
    rewrite (pairwise_sum_unfold _ a), (pairwise_sum_unfold fuel' a); cbv zeta.
  - destruct a; [reflexivity | simpl in H; lia].
  - destruct (length a <? 8)%nat eqn:E8; [reflexivity|].
    destruct (length a <=? 128)%nat eqn:E128; [reflexivity|].
    apply Nat.leb_gt in E128.
    destruct fuel' as [|fuel']; [lia|].
    destruct (pairwise_split_sizes (length a) E128) as [Hleft Hright].
    f_equal; apply IH; rewrite ?length_take, ?length_drop; lia.
Qed.












(** ** [BlendedDatasetConfig._validate] *)





(** ** [DatasetSliceConfig._build] *)

Lemma Float64_round_finite (x : Float64.t) (q : Q) :
  Float64.to_Q x = Some q -> Float64.round x = Return (round q).
Proof.
  unfold Float64.round, Float64.integer.
  destruct x; simpl; try discriminate; now intros [= <-].
Qed.

(** C8.  Building a slice of a corpus of length [L], with floats as
    [begin] and [end], gives it the bounds [round(begin * L)] and
    [round(end * L)]: the products are those of doubles, [L] converted and
    the result rounded to the nearest double, and [round] takes each to the
    nearest integer, a tie going to the even one.  The slice has the length
    [end - begin] of those bounds.  On a corpus of 10 samples, [(0.0, 0.5)]
    gives a slice of length 5 that begins at sample 0 of the corpus, and
    [(0.5, 1.0)] a slice that begins at sample 5.  The defaults, the ints 0
    and 1, give the bounds 0 and [L]. *)
Theorem DatasetSliceConfig_build_rounded
  (config : Machine.IndexedDatasetConfig) (corpus : IndexedDataset.t)
  (begin end_ size : Float64.t) (lo hi : Q) :
  Machine.indexed_build config = Return corpus ->
  Float64.of_int (IndexedDataset.len corpus) = Return size ->
  Float64.to_Q (Float64.mul begin size) = Some lo ->
  Float64.to_Q (Float64.mul end_ size) = Some hi ->
  (exists slice,
      Machine.DatasetSliceConfig_build config (Float begin) (Float end_) = Return slice
      /\ Machine.build (Machine.DatasetSliceConfig config (Float begin) (Float end_))
         = Return (Machine.Slice slice)
      /\ Machine.DatasetSlice.dataset slice = corpus
      /\ Machine.DatasetSlice.begin slice = round lo
      /\ Machine.DatasetSlice.end_ slice = round hi
      /\ rounds_half_to_even lo (Machine.DatasetSlice.begin slice)
      /\ rounds_half_to_even hi (Machine.DatasetSlice.end_ slice)
      /\ Machine.DatasetSlice.len slice = round hi - round lo)
  /\ (IndexedDataset.len corpus = 10 ->
      exists first second,
        Machine.DatasetSliceConfig_build config
          (Float Float64.zero) (Float (Float64.literal 1 2)) = Return first
        /\ Machine.DatasetSliceConfig_build config
             (Float (Float64.literal 1 2)) (Float (Float64.of_Z 1)) = Return second
        /\ Machine.DatasetSlice.begin first = 0
        /\ Machine.DatasetSlice.len first = 5
        /\ Machine.DatasetSlice.begin second = 5
        /\ Machine.DatasetSlice.len second = 5)
  /\ (exists whole,
        Machine.DatasetSliceConfig_build config (Int 0) (Int 1) = Return whole
        /\ Machine.DatasetSlice.begin whole = 0
        /\ Machine.DatasetSlice.end_ whole = IndexedDataset.len corpus).
Proof.
  intros Hbuild Hsize Hlo Hhi. split; [|split].
  - unfold Machine.build, Machine.DatasetSliceConfig_build.
    unfold number_mul, arithmetic, number_round. simpl_outcome.
    rewrite Hbuild, Hsize.
    rewrite (Float64_round_finite _ _ Hlo), (Float64_round_finite _ _ Hhi).
    eexists. split; [reflexivity|]. split; [reflexivity|].
    split; [reflexivity|]. split; [reflexivity|]. split; [reflexivity|].
    split; [apply round_rounds_half_to_even|].
    split; [apply round_rounds_half_to_even|]. reflexivity.
  - intros HL. unfold Machine.DatasetSliceConfig_build.
    rewrite Hbuild. simpl. simpl_outcome. rewrite HL.
    eexists. eexists. split; [vm_compute; reflexivity|].
    split; [vm_compute; reflexivity|]. repeat split.
  - unfold Machine.DatasetSliceConfig_build.
    rewrite Hbuild. simpl. simpl_outcome.
    eexists. split; [reflexivity|]. simpl. split; [reflexivity|].
    destruct (IndexedDataset.len corpus); reflexivity.
Qed.

Lemma DatasetSliceConfig_build_rounded_witness :
  exists slice,
    Machine.DatasetSliceConfig_build example_machine_indexed
      (Float (Float64.literal 9 10)) (Float (Float64.of_Z 1)) = Return slice
    /\ Machine.DatasetSlice.begin slice = 9
    /\ Machine.DatasetSlice.len slice = 1.
Proof.
  destruct (DatasetSliceConfig_build_rounded example_machine_indexed example_corpus
              (Float64.literal 9 10) (Float64.of_Z 1) (Float64.of_Z 10) _ _
              eq_refl eq_refl eq_refl eq_refl)
    as ((slice & Hslice & _ & _ & Hb & _ & _ & _ & Hlen) & _).
  exists slice. split; [exact Hslice|]. split; [rewrite Hb; reflexivity|].
  rewrite Hlen. reflexivity.
Defined.

(** ** [BlendedDatasetConfig.build_and_sample] *)

Lemma H_bind_Return {A B : Type} (m : Machine.H A) (k : A -> Machine.H B)
  (h : heap) (b : B) (h' : heap) :
  (m ≫= k) h = Return (b, h') <->
  exists a h1, m h = Return (a, h1) /\ k a h1 = Return (b, h').
Proof.
  cbv [mbind Machine.H_bind]. destruct (m h) as [[a h1]|e]; split.
  - intros H. exists a, h1. auto.
  - intros (a' & h1' & E & H). injection E as <- <-. exact H.
  - discriminate.
  - intros (a' & h1' & E & _). discriminate E.
Qed.

Section machine_resolution.
Context {Sampled : Type}.
Variable sample : Machine.SamplableDataset -> ref -> Machine.H Sampled.
Variable libm_pow_half : Float64.t -> Float64.t.

(** The context built for a branch: a new object, after all the ones of the
    heap, with the seed and the sample count of the branch and the other
    attributes of the context of the blend. *)
Lemma machine_blended_sampling_Return (legacy : bool) (sampling : ref) (i : Z)
  (weight : number) (h : heap) (data : ref) (h1 : heap) :
  Machine.blended_sampling libm_pow_half legacy sampling i weight h = Return (data, h1) ->
  exists s n,
    sampling_datas h !! sampling = Some s
    /\ Machine.blended_num_samples libm_pow_half legacy weight (num_samples (parameters s))
       = Return n
    /\ data = length (sampling_datas h)
    /\ sampling_datas h1
       = sampling_datas h
           ++ [{| config := to_copy (config s)
                              {[ "seed"%string := blended_seed legacy s i ]};
                  parameters := {| num_samples := n |};
                  cache_directory := cache_directory s;
                  distributed := distributed s;
                  dataset_name := dataset_name s;
                  _rank_counter := _rank_counter s |}]
    /\ counts h1 = counts h.
Proof.
  unfold Machine.blended_sampling. intros H.
  apply H_bind_Return in H as (s & h0 & Hs & H).
  unfold Machine.of_M, deref in Hs.
  destruct (sampling_datas h !! sampling) as [s0|] eqn:E; [|discriminate Hs].
  injection Hs as <- <-.
  apply H_bind_Return in H as (n & h0 & Hn & H).
  unfold Machine.of_outcome in Hn.
  destruct (Machine.blended_num_samples libm_pow_half legacy weight
              (num_samples (parameters s0))) as [n0|e] eqn:En; [|discriminate Hn].
  injection Hn as <- <-.
  unfold Machine.of_M, new_SamplingData in H. simpl in H. injection H as <- <-.
  exists s0, n0. simpl. auto.
Qed.

(** The run of the comprehension, cut at branch [j]: the branches before it
    are run from the heap [h] and leave a heap [h_j]; the context [data] of
    branch [j] is built in [h_j]; the branch is resolved with [data]; and the
    branches after it are run from the heap the branch leaves. *)
Lemma machine_blended_branches_run {C D : Type} (rec : C -> ref -> Machine.H D)
  (legacy : bool) (sampling : ref) (datasets : list C) :
  forall (weights : list number) (i : Z) (h : heap) (xs : list D) (h' : heap),
    Machine.blended_branches libm_pow_half rec legacy sampling i datasets weights h
    = Return (xs, h') ->
    length weights = length datasets
    /\ forall (j : nat) (dataset : C),
        datasets !! j = Some dataset ->
        exists weight h_j data h1 x h2,
          weights !! j = Some weight
          /\ Machine.blended_branches libm_pow_half rec legacy sampling i
               (take j datasets) (take j weights) h = Return (take j xs, h_j)
          /\ Machine.blended_sampling libm_pow_half legacy sampling (i + Z.of_nat j) weight h_j
             = Return (data, h1)
          /\ rec dataset data h1 = Return (x, h2)
          /\ xs !! j = Some x.
Proof.
  induction datasets as [|c datasets IH]; intros [|w weights] i h xs h' H;
    simpl in H; try discriminate H.
  - split; [reflexivity|]. intros j dataset Hj. discriminate Hj.
  - apply H_bind_Return in H as (data & h1 & Hdata & H).
    apply H_bind_Return in H as (x & h2 & Hx & H).
    apply H_bind_Return in H as (xs' & h3 & Hxs & H).
    injection H as <- <-.
    destruct (IH weights (i + 1) h2 xs' h3 Hxs) as [Hlen Hrun].
    split; [simpl; now rewrite Hlen|].
    intros [|j] dataset Hj; simpl in Hj.
    + injection Hj as <-. exists w, h, data, h1, x, h2.
      rewrite Z.add_0_r. repeat split; assumption || reflexivity.
    + destruct (Hrun j dataset Hj) as (weight & h_j & data' & h1' & x' & h2' &
                                        Hw & Hbefore & Hdata' & Hx' & Hlk).
      exists weight, h_j, data', h1', x', h2'.
      split; [exact Hw|]. split.
      { simpl. apply H_bind_Return. exists data, h1. split; [exact Hdata|].
        apply H_bind_Return. exists x, h2. split; [exact Hx|].
        apply H_bind_Return. exists (take j xs'), h_j. split; [exact Hbefore|].
        reflexivity. }
      split; [|split; [exact Hx'|exact Hlk]].
      replace (i + Z.of_nat (S j)) with (i + 1 + Z.of_nat j) by lia. exact Hdata'.
Qed.


(** What the resolution of a blend does with branch [j]. *)
Lemma machine_blended_branch
  (name : string) (datasets : list Machine.SampledDatasetConfig)
  (weights : list number) (legacy : bool) (sampling : ref) (h h' : heap)
  (out : Machine.SampledDataset) (j : nat) (dataset : Machine.SampledDatasetConfig) :
  Machine.build_and_sample sample libm_pow_half
    (Machine.BlendedDatasetConfig name datasets weights legacy) sampling h
  = Return (out, h') ->
  datasets !! j = Some dataset ->
  exists sampled weight h_j s n data h1 x h2,
    out = Machine.BlendedDataset name sampled weights sampling
    /\ weights !! j = Some weight
    /\ Machine.blended_branches libm_pow_half
         (Machine.build_and_sample sample libm_pow_half) legacy sampling 0
         (take j datasets) (take j weights) h = Return (take j sampled, h_j)
    /\ sampling_datas h_j !! sampling = Some s
    /\ Machine.blended_num_samples libm_pow_half legacy weight (num_samples (parameters s))
       = Return n
    /\ Machine.blended_sampling libm_pow_half legacy sampling (Z.of_nat j) weight h_j
       = Return (data, h1)
    /\ sampling_datas h1 !! data
       = Some {| config := to_copy (config s)
                             {[ "seed"%string := blended_seed legacy s (Z.of_nat j) ]};
                 parameters := {| num_samples := n |};
                 cache_directory := cache_directory s;
                 distributed := distributed s;
                 dataset_name := dataset_name s;
                 _rank_counter := _rank_counter s |}
    /\ Machine.build_and_sample sample libm_pow_half dataset data h1 = Return (x, h2)
    /\ sampled !! j = Some x.
Proof.
  intros H Hj. simpl in H.
  apply H_bind_Return in H as (sampled & h0 & Hrun & H).
  injection H as <- <-.
  destruct (machine_blended_branches_run _ _ _ _ _ _ _ _ _ Hrun) as [_ Hbranch].
  destruct (Hbranch j dataset Hj)
    as (weight & h_j & data & h1 & x & h2 & Hw & Hbefore & Hdata & Hx & Hlk).
  rewrite Z.add_0_l in Hdata.
  destruct (machine_blended_sampling_Return _ _ _ _ _ _ _ Hdata)
    as (s & n & Hs & Hn & Hdata_ref & Hh1 & _).
  exists sampled, weight, h_j, s, n, data, h1, x, h2.
  repeat (split; [assumption || reflexivity|]).
  split; [|split; assumption].
  rewrite Hh1, Hdata_ref. rewrite lookup_app_r by lia.
  rewrite Nat.sub_diag. reflexivity.
Qed.

(** C6.  When a blended node resolves, branch [j] (counted from 0) is
    resolved with a context built for it when it is reached, after the
    branches before it have been resolved; the seed of that context is the
    seed the context of the node then has, plus [j * 0] when [legacy] is set
    and plus [j * 697] otherwise. *)
Theorem blended_branch_resolved_seed
  (name : string) (datasets : list Machine.SampledDatasetConfig)
  (weights : list number) (legacy : bool) (sampling : ref) (h h' : heap)
  (out : Machine.SampledDataset) (j : nat) (dataset : Machine.SampledDatasetConfig) :
  Machine.build_and_sample sample libm_pow_half
    (Machine.BlendedDatasetConfig name datasets weights legacy) sampling h
  = Return (out, h') ->
  datasets !! j = Some dataset ->
  exists sampled weight h_j s data h1 s_j x h2,
    out = Machine.BlendedDataset name sampled weights sampling
    /\ weights !! j = Some weight
    /\ Machine.blended_branches libm_pow_half
         (Machine.build_and_sample sample libm_pow_half) legacy sampling 0
         (take j datasets) (take j weights) h = Return (take j sampled, h_j)
    /\ sampling_datas h_j !! sampling = Some s
    /\ Machine.blended_sampling libm_pow_half legacy sampling (Z.of_nat j) weight h_j
       = Return (data, h1)
    /\ sampling_datas h1 !! data = Some s_j
    /\ Machine.build_and_sample sample libm_pow_half dataset data h1 = Return (x, h2)
    /\ sampled !! j = Some x
    /\ seed (config s_j)
       = seed (config s) + Z.of_nat j * (if legacy then 0 else 697).
Proof.
  intros H Hj.
  destruct (machine_blended_branch _ _ _ _ _ _ _ _ _ _ H Hj)
    as (sampled & weight & h_j & s & n & data & h1 & x & h2 &
        Hout & Hw & Hbefore & Hs & _ & Hdata & Hnew & Hx & Hlk).
  exists sampled, weight, h_j, s, data, h1. eexists. exists x, h2.
  repeat (split; [eassumption|]).
  simpl. rewrite seed_to_copy. reflexivity.
Qed.


End machine_resolution.

Lemma blended_branch_resolved_seed_witness :
  exists out h',
    Machine.build_and_sample example_sample example_libm_pow_half
      (Machine.BlendedDatasetConfig "blended"
         [example_machine_leaf; example_machine_leaf] example_weights_quarters false)
      0%nat (example_heap 4 100)
    = Return (out, h')
    /\ exists sampled weight h_j s data h1 s_j x h2,
        out = Machine.BlendedDataset "blended" sampled example_weights_quarters 0%nat
        /\ example_weights_quarters !! 1%nat = Some weight
        /\ Machine.blended_branches example_libm_pow_half
             (Machine.build_and_sample example_sample example_libm_pow_half) false 0%nat 0
             (take 1 [example_machine_leaf; example_machine_leaf])
             (take 1 example_weights_quarters) (example_heap 4 100)
           = Return (take 1 sampled, h_j)
        /\ sampling_datas h_j !! 0%nat = Some s
        /\ Machine.blended_sampling example_libm_pow_half false 0%nat (Z.of_nat 1) weight h_j
           = Return (data, h1)
        /\ sampling_datas h1 !! data = Some s_j
        /\ Machine.build_and_sample example_sample example_libm_pow_half
             example_machine_leaf data h1 = Return (x, h2)
        /\ sampled !! 1%nat = Some x
        /\ seed (config s_j) = seed (config s) + Z.of_nat 1 * (if false then 0 else 697).
Proof.
  eexists. eexists. split.
  - vm_compute. reflexivity.
  - eapply (blended_branch_resolved_seed example_sample example_libm_pow_half "blended"
              [example_machine_leaf; example_machine_leaf] example_weights_quarters
              false 0%nat (example_heap 4 100)).
    + vm_compute. reflexivity.
    + reflexivity.
Defined.



(** ** [padded_cumsum] *)

Lemma wrap_small (z : Z) : - 2 ^ 63 <= z < 2 ^ 63 -> np.wrap z = z.
Proof. intros Hz. unfold np.wrap. rewrite Z.mod_small by lia. lia. Qed.

Lemma wrap_add_l (a b : Z) : np.wrap (np.wrap a + b) = np.wrap (a + b).
Proof.
  unfold np.wrap. f_equal.
  replace ((a + 2 ^ 63) mod 2 ^ 64 - 2 ^ 63 + b + 2 ^ 63)
    with ((a + 2 ^ 63) mod 2 ^ 64 + b) by lia.
  rewrite Zplus_mod_idemp_l. f_equal. lia.
Qed.

Lemma accumulate_length {A : Type} (add : A -> A -> A) (y : list A) :
  forall acc, length (np.accumulate add acc y) = length y.
Proof. induction y as [|v y IH]; intros acc; simpl; [|rewrite IH]; reflexivity. Qed.

Lemma accumulate_wrap_lookup (y : list Z) :
  forall (acc : Z) (i : nat),
    (i < length y)%nat ->
    np.accumulate (fun s w => np.wrap (s + w)) acc y !! i
    = Some (np.wrap (acc + sum_ints (take (S i) y))).
Proof.
  induction y as [|v y IH]; intros acc i Hi; simpl in Hi; [lia|].
  destruct i as [|i]; cbn [np.accumulate].
  - cbn. unfold sum_ints. change (take 0 y) with (@nil Z). cbn [take fold_right].
    do 2 f_equal. lia.
  - change ((?a :: ?l) !! S i) with (l !! i).
    rewrite IH by lia. rewrite wrap_add_l. cbn [take sum_ints fold_right].
    do 2 f_equal. unfold sum_ints. lia.
Qed.

Lemma accumulate_step {A : Type} (add : A -> A -> A) (y : list A) :
  forall (acc : A) (i : nat) (v : A),
    y !! i = Some v ->
    exists s, (acc :: np.accumulate add acc y) !! i = Some s
              /\ (acc :: np.accumulate add acc y) !! S i = Some (add s v).
Proof.
  induction y as [|w y IH]; intros acc i v Hv; [discriminate Hv|].
  destruct i as [|i]; simpl in Hv.
  - injection Hv as <-. exists acc. split; reflexivity.
  - destruct (IH (add acc w) i v Hv) as (s & H1 & H2).
    exists s. split; [exact H1|exact H2].
Qed.

Lemma sum_ints_take_S (x : list Z) (i : nat) (v : Z) :
  x !! i = Some v -> sum_ints (take (S i) x) = sum_ints (take i x) + v.
Proof.
  intros Hv. rewrite (take_S_r _ _ _ Hv). unfold sum_ints. rewrite fold_right_app.
  simpl. generalize (take i x). intros l. induction l as [|w l IH]; simpl; lia.
Qed.

Lemma sum_ints_take_le (x : list Z) :
  Forall (fun v => 0 <= v) x ->
  forall i j : nat, (i <= j)%nat -> sum_ints (take i x) <= sum_ints (take j x).
Proof.
  unfold sum_ints. induction 1 as [|v x Hv _ IH]; intros i j Hij.
  - rewrite !take_nil. reflexivity.
  - destruct i as [|i]; destruct j as [|j]; simpl; try lia.
    + assert (0 <= fold_right Z.add 0 (take j x)); [|lia].
      specialize (IH 0%nat j ltac:(lia)). rewrite take_0 in IH. exact IH.
    + specialize (IH i j ltac:(lia)). lia.
Qed.

(** X3.  [padded_cumsum(x)] has one element more than [x], and starts with
    0.  On an array of 64-bit integers its element [i] is the sum of the
    first [i] elements of [x], wrapped around to 64 bits; as long as these
    sums fit 64 bits it is the sum itself: the last element is the sum of
    [x], two consecutive elements differ by the element of [x] between
    them, and the result is non-decreasing when no element of [x] is
    negative.  On an array of floats each element is the one before it plus
    the element of [x] between them, rounded. *)
Theorem padded_cumsum_offsets (x : list Z) (a : list Float64.t) :
  (exists y,
      padded_cumsum (np.int64 x) = np.int64 y
      /\ length y = S (length x)
      /\ (forall i : nat, (i <= length x)%nat ->
            y !! i = Some (np.wrap (sum_ints (take i x))))
      /\ ((forall i : nat, (i <= length x)%nat ->
             - 2 ^ 63 <= sum_ints (take i x) < 2 ^ 63) ->
          (forall i : nat, (i <= length x)%nat -> y !! i = Some (sum_ints (take i x)))
          /\ y !! 0%nat = Some 0
          /\ y !! length x = Some (sum_ints x)
          /\ (forall (i : nat) v, x !! i = Some v ->
                exists s, y !! i = Some s /\ y !! S i = Some (s + v))
          /\ (Forall (fun v => 0 <= v) x ->
              forall (i j : nat) s t, (i <= j)%nat ->
                y !! i = Some s -> y !! j = Some t -> s <= t)))
  /\ (exists y,
        padded_cumsum (np.float64 a) = np.float64 y
        /\ length y = S (length a)
        /\ y !! 0%nat = Some Float64.zero
        /\ (forall (i : nat) v, a !! i = Some v ->
              exists s, y !! i = Some s /\ y !! S i = Some (Float64.add s v))).
Proof.
  split.
  - eexists. split; [reflexivity|].
    assert (Hwrap : forall i : nat, (i <= length x)%nat ->
              (0 :: np.accumulate (fun s w => np.wrap (s + w)) 0 x) !! i
              = Some (np.wrap (sum_ints (take i x)))).
    { intros [|i] Hi; [reflexivity|].
      change ((?v :: ?l) !! S i) with (l !! i).
      rewrite accumulate_wrap_lookup by lia. reflexivity. }
    split; [simpl; now rewrite accumulate_length|]. split; [exact Hwrap|].
    intros Hfit.
    assert (Hexact : forall i : nat, (i <= length x)%nat ->
              (0 :: np.accumulate (fun s w => np.wrap (s + w)) 0 x) !! i
              = Some (sum_ints (take i x))).
    { intros i Hi. rewrite Hwrap by exact Hi. f_equal. apply wrap_small, Hfit, Hi. }
    split; [exact Hexact|]. split; [reflexivity|].
    split; [rewrite Hexact by lia; now rewrite firstn_all|]. split.
    + intros i v Hv. pose proof (lookup_lt_Some _ _ _ Hv) as Hi.
      exists (sum_ints (take i x)). split; [apply Hexact; lia|].
      rewrite Hexact by lia. f_equal. exact (sum_ints_take_S x i v Hv).
    + intros Hnn i j s t Hij Hs Ht.
      assert (Hj : (j <= length x)%nat).
      { apply lookup_lt_Some in Ht. simpl in Ht. rewrite accumulate_length in Ht. lia. }
      rewrite Hexact in Hs by lia. rewrite Hexact in Ht by lia.
      injection Hs as <-. injection Ht as <-.
      apply sum_ints_take_le; assumption.
  - eexists. split; [reflexivity|].
    split; [simpl; now rewrite accumulate_length|]. split; [reflexivity|].
    intros i v Hv. exact (accumulate_step Float64.add a Float64.zero i v Hv).
Qed.

Lemma padded_cumsum_offsets_witness :
  padded_cumsum (np.int64 [10; 20; 5]) = np.int64 [0; 10; 30; 35]
  /\ padded_cumsum (np.int64 [2 ^ 62; 2 ^ 62]) = np.int64 [0; 2 ^ 62; - 2 ^ 63]
  /\ exists y,
      padded_cumsum (np.int64 [10; 20; 5]) = np.int64 y
      /\ y !! 3%nat = Some (sum_ints [10; 20; 5]).
Proof.
  split; [reflexivity|]. split; [reflexivity|].
  destruct (padded_cumsum_offsets [10; 20; 5] []) as ((y & Hy & _ & _ & H) & _).
  exists y. split; [exact Hy|].
  apply H. intros [|[|[|[|i]]]] Hi; simpl in Hi; try lia; vm_compute; (split; [discriminate|reflexivity]).
Defined.

(** ** [get_lr_scale] *)

(** X6.  [get_lr_scale] by cases.  [None] is neutral on both sides.  The
    call fails, with a [ValueError], exactly when [lr_scale] is neither
    [None], a float nor a tuple while a layer scale is given.  A float is
    multiplied by the layer scale, the product rounded to the nearest
    double; a tuple keeps its length, each float in it is multiplied by the
    layer scale and each [None] becomes the layer scale.  Applying two
    layer scales one after the other is not applying their product: from
    [0.1], the scales [0.1] and then [0.3] do not give what the scale
    [0.1 * 0.3] gives. *)
Theorem get_lr_scale_cases (lr_scale : lr_scale_value) :
  (forall layer_lr_scale, get_lr_scale LrNone layer_lr_scale
                          = Ok (lr_scale_of_option layer_lr_scale))
  /\ get_lr_scale lr_scale None = Ok lr_scale
  /\ (forall layer_lr_scale e,
        get_lr_scale lr_scale layer_lr_scale = Err e <->
        e = ValueError /\ (exists z, lr_scale = LrInt z) /\ layer_lr_scale <> None)
  /\ (forall x l, lr_scale = LrFloat x ->
        get_lr_scale lr_scale (Some l) = Ok (LrFloat (Float64.mul x l)))
  /\ (forall t l, lr_scale = LrTuple t ->
        exists u,
          get_lr_scale lr_scale (Some l) = Ok (LrTuple u)
          /\ length u = length t
          /\ (forall i v, t !! i = Some (Some v) -> u !! i = Some (Some (Float64.mul v l)))
          /\ (forall i, t !! i = Some None -> u !! i = Some (Some l)))
  /\ (s1 ← get_lr_scale (LrFloat (Float64.literal 1 10)) (Some (Float64.literal 1 10));
      get_lr_scale s1 (Some (Float64.literal 3 10)))
     <> get_lr_scale (LrFloat (Float64.literal 1 10))
          (Some (Float64.mul (Float64.literal 1 10) (Float64.literal 3 10))).
Proof.
  split; [reflexivity|].
  split; [destruct lr_scale; reflexivity|].
  split; [|split; [|split]].
  - intros layer_lr_scale e. split.
    + intros H. destruct lr_scale, layer_lr_scale; simpl in H; try discriminate.
      injection H as <-. split; [reflexivity|]. split; [eauto | discriminate].
    + intros (-> & [z ->] & Hl). destruct layer_lr_scale; [reflexivity | congruence].
  - intros x l ->. reflexivity.
  - intros t l ->. eexists. split; [reflexivity|].
    split; [apply length_map|]. split.
    + intros i v Hi. rewrite list_lookup_fmap, Hi. reflexivity.
    + intros i Hi. rewrite list_lookup_fmap, Hi. reflexivity.
  - vm_compute. discriminate.
Qed.

Lemma get_lr_scale_cases_witness :
  get_lr_scale (LrInt 1) (Some (Float64.literal 1 2)) = Err ValueError
  /\ get_lr_scale (LrFloat (Float64.of_Z 3)) (Some (Float64.literal 1 2))
     = Ok (LrFloat (Float64.literal 3 2)).
Proof.
  split.
  - apply (proj1 (proj2 (proj2 (get_lr_scale_cases (LrInt 1))))).
    split; [reflexivity|]. split; [eauto | discriminate].
  - rewrite (proj1 (proj2 (proj2 (proj2 (get_lr_scale_cases (LrFloat (Float64.of_Z 3))))))
               (Float64.of_Z 3) (Float64.literal 1 2) eq_refl).
    vm_compute. reflexivity.
Defined.

(** ** Resolution and the sampling contexts that exist *)

(** Induction on a configuration tree, with the hypothesis on every branch
    of a blended node. *)
Lemma machine_SampledDatasetConfig_tree_ind (P : Machine.SampledDatasetConfig -> Prop) :
  (forall c, P (Machine.Samplable c)) ->
  (forall sampling dataset,
      P dataset -> P (Machine.SampledDatasetUpdateConfig sampling dataset)) ->
  (forall name datasets weights legacy,
      Forall P datasets -> P (Machine.BlendedDatasetConfig name datasets weights legacy)) ->
  forall c, P c.
Proof.
  intros HS HU HB.
  fix IH 1. intros [c|sampling dataset|name datasets weights legacy].
  - apply HS.
  - apply HU, IH.
  - apply HB. induction datasets as [|d datasets IHd]; constructor.
    + apply IH.
    + exact IHd.
Qed.

Section machine_frame.
Context {Sampled : Type}.
Variable sample : Machine.SamplableDataset -> ref -> Machine.H Sampled.
Variable libm_pow_half : Float64.t -> Float64.t.
Hypothesis sample_keeps : keeps_contexts sample.

Lemma machine_blended_branches_prefix {C D : Type} (rec : C -> ref -> Machine.H D)
  (legacy : bool) (sampling : ref) (datasets : list C) :
  Forall (fun c => forall r h x h',
              rec c r h = Return (x, h') ->
              sampling_datas h `prefix_of` sampling_datas h') datasets ->
  forall weights i h xs h',
    Machine.blended_branches libm_pow_half rec legacy sampling i datasets weights h
    = Return (xs, h') ->
    sampling_datas h `prefix_of` sampling_datas h'.
Proof.
  induction 1 as [|c datasets Hc _ IH]; intros [|w weights] i h xs h' H; simpl in H;
    try discriminate H.
  - injection H as <- <-. reflexivity.
  - apply H_bind_Return in H as (data & h1 & Hdata & H).
    apply H_bind_Return in H as (x & h2 & Hx & H).
    apply H_bind_Return in H as (xs' & h3 & Hxs & H).
    injection H as <- <-.
    apply machine_blended_sampling_Return in Hdata as (s & n & _ & _ & _ & E1 & _).
    apply Hc in Hx. apply IH in Hxs.
    transitivity (sampling_datas h1); [rewrite E1; now apply prefix_app_r|].
    transitivity (sampling_datas h2); assumption.
Qed.

(** Resolution only allocates contexts, as long as the provider leaves them
    as they are. *)
Lemma machine_build_and_sample_prefix (c : Machine.SampledDatasetConfig) :
  forall sampling h x h',
    Machine.build_and_sample sample libm_pow_half c sampling h = Return (x, h') ->
    sampling_datas h `prefix_of` sampling_datas h'.
Proof.
  induction c as [c|update dataset IH|name datasets weights legacy IH]
    using machine_SampledDatasetConfig_tree_ind; intros sampling h x h' H; simpl in H.
  - apply H_bind_Return in H as (dataset & h0 & Hbuild & H).
    unfold Machine.of_outcome in Hbuild.
    destruct (Machine.build c) as [built|e]; [|discriminate Hbuild].
    injection Hbuild as <- <-.
    apply H_bind_Return in H as (d & h1 & Hd & H). injection H as <- <-.
    exact (sample_keeps _ _ _ _ _ Hd).
  - apply H_bind_Return in H as (data & h1 & Hu & H).
    unfold Machine.of_M in Hu.
    destruct (update_config sampling update h) as [[r h0]|e] eqn:E; [|discriminate Hu].
    injection Hu as <- <-.
    apply update_config_Ok in E as (s & _ & _ & [E1 _] & _).
    apply IH in H. transitivity (sampling_datas h0); assumption.
  - apply H_bind_Return in H as (xs & h1 & Hb & H).
    injection H as <- <-.
    eapply machine_blended_branches_prefix; eassumption.
Qed.

Lemma machine_branches_before_prefix
  (legacy : bool) (sampling : ref) (datasets : list Machine.SampledDatasetConfig)
  (weights : list number) (i : Z) (h : heap) (xs : list Machine.SampledDataset)
  (h' : heap) :
  Machine.blended_branches libm_pow_half
    (Machine.build_and_sample sample libm_pow_half) legacy sampling i datasets weights h
  = Return (xs, h') ->
  sampling_datas h `prefix_of` sampling_datas h'.
Proof.
  apply machine_blended_branches_prefix.
  apply Forall_forall. intros c _. apply machine_build_and_sample_prefix.
Qed.

(** X9.  Resolution only allocates, if the provider does.  Whatever the
    configuration tree, when the [sample] of the provider leaves the
    sampling contexts as they are and [build_and_sample] returns, every
    [SamplingData] that existed before is at the same reference with the
    same attributes, and there are no fewer of them. *)
Theorem build_and_sample_frame
  (c : Machine.SampledDatasetConfig) (sampling : ref) (h h' : heap)
  (out : Machine.SampledDataset) :
  Machine.build_and_sample sample libm_pow_half c sampling h = Return (out, h') ->
  (forall r s, sampling_datas h !! r = Some s -> sampling_datas h' !! r = Some s)
  /\ (length (sampling_datas h) <= length (sampling_datas h'))%nat.
Proof.
  intros H. apply machine_build_and_sample_prefix in H. split.
  - intros r s Hs. eapply prefix_lookup_Some; eassumption.
  - apply prefix_length, H.
Qed.

(** X12.  Seeds are not unique under nesting.  When a blend without
    [legacy] has as its first branch another blend without [legacy], and
    the provider leaves the sampling contexts as they are, branch [j] of the
    inner blend and branch [j] of the outer blend are resolved with the
    same seed, the seed of the outer context plus [j * 697].  The contexts
    are the ones of the run: the one of the inner blend is built first,
    from the heap the resolution starts in; the one of a branch [j] is
    built after the branches before it have been resolved. *)
Theorem nested_blended_seed_collision
  (name name' : string) (inner datasets : list Machine.SampledDatasetConfig)
  (inner_weights weights : list number) (weight : number)
  (sampling : ref) (s : SamplingData) (h h' : heap) (out : Machine.SampledDataset)
  (j : nat) (d_inner d_outer : Machine.SampledDatasetConfig) :
  sampling_datas h !! sampling = Some s ->
  Machine.build_and_sample sample libm_pow_half
    (Machine.BlendedDatasetConfig name
       (Machine.BlendedDatasetConfig name' inner inner_weights false :: datasets)
       (weight :: weights) false) sampling h
  = Return (out, h') ->
  inner !! j = Some d_inner ->
  (Machine.BlendedDatasetConfig name' inner inner_weights false :: datasets) !! j
  = Some d_outer ->
  exists sampled inner_sampled data0 g1 g2
         inner_weight g_j data_inner g_j1 s_inner x_inner g_j2
         outer_weight h_j data_outer h_j1 s_outer x_outer h_j2,
    out = Machine.BlendedDataset name
            (Machine.BlendedDataset name' inner_sampled inner_weights data0 :: sampled)
            (weight :: weights) sampling
    (* the inner blend is the first branch, resolved from [h] *)
    /\ Machine.blended_sampling libm_pow_half false sampling 0 weight h = Return (data0, g1)
    /\ Machine.build_and_sample sample libm_pow_half
         (Machine.BlendedDatasetConfig name' inner inner_weights false) data0 g1
       = Return (Machine.BlendedDataset name' inner_sampled inner_weights data0, g2)
    (* branch [j] of the inner blend *)
    /\ inner_weights !! j = Some inner_weight
    /\ Machine.blended_branches libm_pow_half
         (Machine.build_and_sample sample libm_pow_half) false data0 0
         (take j inner) (take j inner_weights) g1 = Return (take j inner_sampled, g_j)
    /\ Machine.blended_sampling libm_pow_half false data0 (Z.of_nat j) inner_weight g_j
       = Return (data_inner, g_j1)
    /\ sampling_datas g_j1 !! data_inner = Some s_inner
    /\ Machine.build_and_sample sample libm_pow_half d_inner data_inner g_j1
       = Return (x_inner, g_j2)
    /\ inner_sampled !! j = Some x_inner
    (* branch [j] of the outer blend *)
    /\ (weight :: weights) !! j = Some outer_weight
    /\ Machine.blended_branches libm_pow_half
         (Machine.build_and_sample sample libm_pow_half) false sampling 0
         (take j (Machine.BlendedDatasetConfig name' inner inner_weights false :: datasets))
         (take j (weight :: weights)) h
       = Return (take j (Machine.BlendedDataset name' inner_sampled inner_weights data0
                         :: sampled), h_j)
    /\ Machine.blended_sampling libm_pow_half false sampling (Z.of_nat j) outer_weight h_j
       = Return (data_outer, h_j1)
    /\ sampling_datas h_j1 !! data_outer = Some s_outer
    /\ Machine.build_and_sample sample libm_pow_half d_outer data_outer h_j1
       = Return (x_outer, h_j2)
    /\ (Machine.BlendedDataset name' inner_sampled inner_weights data0 :: sampled) !! j
       = Some x_outer
    (* the two seeds *)
    /\ seed (config s_inner) = seed (config s) + Z.of_nat j * 697
    /\ seed (config s_outer) = seed (config s) + Z.of_nat j * 697.
Proof.
  intros Hs H Hin Hout.
  (* the outer blend at its first branch *)
  destruct (machine_blended_branch sample libm_pow_half _ _ _ _ _ _ _ _ 0%nat _ H eq_refl)
    as (sampled0 & weight0 & h_0 & s_0 & n_0 & data0 & g1 & x_0 & g2 &
        Hout0 & Hw0 & Hbefore0 & Hs0 & _ & Hdata0 & Hnew0 & Hx0 & Hlk0).
  simpl in Hbefore0. injection Hbefore0 as <-.
  simpl in Hw0. injection Hw0 as <-.
  assert (s_0 = s) as -> by congruence.
  (* the outer blend at branch [j] *)
  destruct (machine_blended_branch sample libm_pow_half _ _ _ _ _ _ _ _ j _ H Hout)
    as (sampled & outer_weight & h_j & s_j & n_j & data_outer & h_j1 & x_outer & h_j2 &
        Hout_j & Hwj & Hbefore_j & Hsj & _ & Hdata_j & Hnew_j & Hx_j & Hlk_j).
  assert (sampled0 = sampled) as -> by congruence.
  assert (s_j = s) as ->.
  { pose proof (machine_branches_before_prefix _ _ _ _ _ _ _ _ Hbefore_j) as Hp.
    pose proof (prefix_lookup_Some _ _ _ _ Hs Hp) as Hs'.
    enough (Some s_j = Some s) as [= E]; [exact E|].
    rewrite <- Hsj. exact Hs'. }
  (* the inner blend at branch [j] *)
  destruct (machine_blended_branch sample libm_pow_half _ _ _ _ _ _ _ _ j _ Hx0 Hin)
    as (inner_sampled & inner_weight & g_j & s_i & n_i & data_inner & g_j1 & x_inner &
        g_j2 & Hout_i & Hwi & Hbefore_i & Hsi & _ & Hdata_i & Hnew_i & Hx_i & Hlk_i).
  pose proof (machine_branches_before_prefix _ _ _ _ _ _ _ _ Hbefore_i) as Hp.
  pose proof (prefix_lookup_Some _ _ _ _ Hnew0 Hp) as Hs_i.
  apply (eq_trans (eq_sym Hsi)) in Hs_i. injection Hs_i as ->.
  subst x_0.
  destruct sampled as [|x_0 sampled]; [discriminate Hlk0|].
  simpl in Hlk0. injection Hlk0 as ->.
  eexists sampled, inner_sampled, data0, g1, g2.
  eexists inner_weight, g_j, data_inner, g_j1, _, x_inner, g_j2.
  eexists outer_weight, h_j, data_outer, h_j1, _, x_outer, h_j2.
  split; [exact Hout_j|]. split; [exact Hdata0|]. split; [exact Hx0|].
  split; [exact Hwi|]. split; [exact Hbefore_i|]. split; [exact Hdata_i|].
  split; [exact Hnew_i|]. split; [exact Hx_i|]. split; [exact Hlk_i|].
  split; [exact Hwj|]. split; [exact Hbefore_j|]. split; [exact Hdata_j|].
  split; [exact Hnew_j|]. split; [exact Hx_j|]. split; [exact Hlk_j|].
  cbn [config]. rewrite !seed_to_copy. unfold blended_seed. cbn [config].
  rewrite seed_to_copy. unfold blended_seed. split; lia.
Qed.

End machine_frame.

Lemma example_sample_keeps_contexts : keeps_contexts example_sample.
Proof. intros dataset sampling h d h' H. injection H as _ <-. reflexivity. Qed.

Lemma build_and_sample_frame_witness :
  exists out h',
    Machine.build_and_sample example_sample example_libm_pow_half
      example_machine_nested 0%nat (example_heap 4 100)
    = Return (out, h')
    /\ sampling_datas h' !! 0%nat = Some (example_sampling 4 100)
    /\ (1 <= length (sampling_datas h'))%nat.
Proof.
  destruct (Machine.build_and_sample example_sample example_libm_pow_half
              example_machine_nested 0%nat (example_heap 4 100))
    as [[out h']|e] eqn:E; [|vm_compute in E; discriminate E].
  exists out, h'. split; [reflexivity|].
  destruct (build_and_sample_frame example_sample example_libm_pow_half
              example_sample_keeps_contexts _ _ _ _ _ E) as [Hold Hlen].
  split; [apply Hold; reflexivity | exact Hlen].
Defined.

Lemma nested_blended_seed_collision_witness :
  exists out h',
    Machine.build_and_sample example_sample example_libm_pow_half
      example_machine_nested 0%nat (example_heap 4 100)
    = Return (out, h')
    /\ exists data_inner g_j1 s_inner x_inner g_j2 data_outer h_j1 s_outer x_outer h_j2,
         sampling_datas g_j1 !! data_inner = Some s_inner
         /\ Machine.build_and_sample example_sample example_libm_pow_half
              example_machine_leaf data_inner g_j1 = Return (x_inner, g_j2)
         /\ sampling_datas h_j1 !! data_outer = Some s_outer
         /\ Machine.build_and_sample example_sample example_libm_pow_half
              example_machine_leaf data_outer h_j1 = Return (x_outer, h_j2)
         /\ data_inner <> data_outer
         /\ seed (config s_inner) = 784569 + 697
         /\ seed (config s_outer) = 784569 + 697.
Proof.
  destruct (Machine.build_and_sample example_sample example_libm_pow_half
              example_machine_nested 0%nat (example_heap 4 100))
    as [[out h']|e] eqn:E; [|vm_compute in E; discriminate E].
  exists out, h'. split; [reflexivity|].
  destruct (nested_blended_seed_collision example_sample example_libm_pow_half
              example_sample_keeps_contexts "outer" "inner"
              [example_machine_leaf; example_machine_leaf] [example_machine_leaf]
              example_weights_quarters [Float (Float64.literal 3 4)]
              (Float (Float64.literal 1 4)) 0%nat (example_sampling 4 100)
              (example_heap 4 100) h' out 1%nat example_machine_leaf example_machine_leaf
              eq_refl E eq_refl eq_refl)
    as (sampled & inner_sampled & data0 & g1 & g2 &
        inner_weight & g_j & data_inner & g_j1 & s_inner & x_inner & g_j2 &
        outer_weight & h_j & data_outer & h_j1 & s_outer & x_outer & h_j2 &
        _ & Hdata0 & _ & Hwi & Hbefore_i & Hdata_i & Hnew_i & Hx_i & _ &
        Hwo & Hbefore_o & Hdata_o & Hnew_o & Hx_o & _ & Hseed_i & Hseed_o).
  exists data_inner, g_j1, s_inner, x_inner, g_j2, data_outer, h_j1, s_outer, x_outer, h_j2.
  split; [exact Hnew_i|]. split; [exact Hx_i|]. split; [exact Hnew_o|].
  split; [exact Hx_o|]. split; [|split; [exact Hseed_i|exact Hseed_o]].
  vm_compute in Hdata0. injection Hdata0 as <- <-.
  injection Hwi as <-. injection Hwo as <-.
  vm_compute in Hbefore_i. injection Hbefore_i as _ <-.
  vm_compute in Hdata_i. injection Hdata_i as <- _.
  vm_compute in Hbefore_o.
  injection Hbefore_o as _ <-. vm_compute in Hdata_o. injection Hdata_o as <- _.
  discriminate.
Defined.

(** ** Validating a validated configuration *)

(** X15.  Validation is not stable on floats.  The blend of three leaves
    with the weights [1.0, 4.0, 1.0] passes validation, and what validation
    returns passes it again; the weights stored the second time are not the
    ones stored the first time.  With 9 samples requested, the branches are
    asked for [3, 7, 3] samples with the first weights and for [3, 8, 3]
    with the second. *)
Theorem validate_not_idempotent :
  exists once twice weights weights',
    Machine.validate (example_machine_blended example_weights_141 false) = Return once
    /\ Machine.validate once = Return twice
    /\ once = example_machine_blended (map Float weights) false
    /\ twice = example_machine_blended (map Float weights') false
    /\ once <> twice
    /\ map (fun w => Machine.blended_num_samples example_libm_pow_half false (Float w) 9)
         weights = [Return 3; Return 7; Return 3]
    /\ map (fun w => Machine.blended_num_samples example_libm_pow_half false (Float w) 9)
         weights' = [Return 3; Return 8; Return 3].
Proof.
  eexists. eexists. eexists [_; _; _]. eexists [_; _; _].
  split; [vm_compute; reflexivity|]. split; [vm_compute; reflexivity|].
  split; [vm_compute; reflexivity|]. split; [vm_compute; reflexivity|].
  split; [vm_compute; discriminate|].
  split; vm_compute; reflexivity.
Qed.
